(** * BOQ Comparator: merging contractors' quotations

    A shallow embedding of [app.py] (the Streamlit BOQ comparator) and the
    properties of its loader, column normaliser, merger and de-duplicator.

    Modelling conventions.
    - A column label is a [string] (a sequence of bytes), as a header row of
      text gives it; a header cell that is not text is outside the model.
      The only case-sensitive tests of the program look for the ASCII
      letters of ["rate"] and [".csv"], and Python's [str.lower] maps no
      character outside [A-Z] to one of those letters, so lowering [A-Z]
      byte-wise decides the same tests.
    - A [DataFrame] carries its column labels and its rows; the row index is
      the positional one ([0 .. n-1]) that [read_csv], [read_excel] and
      [merge] produce.
    - [pd.read_csv] and [pd.read_excel] are parameters of the development.
    - [pd.merge] and [pd.concat] are modelled by what they return; pandas'
      own refusals (a key column of two incompatible types, a suffix clash)
      raise inside the library and return no table.  The rows of a join
      are listed in the order of the accumulator, where pandas orders them
      by key; statements about the rows of a join are about which rows
      there are, not where.
    - A number is an integer [Num z].  pandas compares an integer key
      column with a floating-point one as floating-point numbers, and turns
      an integer column into a floating-point one when a join leaves a cell
      of it missing; both are exact up to [2^53] in magnitude.  Statements
      about the cells or the pairing of rows of a join carry that bound
      ([exact_numbers]) as a hypothesis.
    - [st.dataframe] refuses a table with a repeated label; the statement
      about the page of a successful run is made for tables with pairwise
      distinct labels.
    - Streamlit calls that write to the page are recorded as a list of
      [Event]s, returned next to the value in the [UI] monad; the spinner
      shown while merging leaves no trace and is not recorded, and the
      workbook offered for download is represented by the table it
      serialises. *)

From Stdlib Require Import Ascii String DecimalString DecimalNat.
From stdpp Require Import gmap strings list.

Open Scope string_scope.
Open Scope list_scope.

(** ** Strings *)

Module Str.

(** One byte of [str.lower()]. *)
Definition lower_ascii (a : ascii) : ascii :=
  let n := nat_of_ascii a in
  if (65 <=? n)%nat && (n <=? 90)%nat then ascii_of_nat (n + 32) else a.

(** [s.lower()] *)
Fixpoint lower (s : string) : string :=
  match s with
  | EmptyString => EmptyString
  | String a r => String (lower_ascii a) (lower r)
  end.

(** [needle in hay] on strings. *)
Fixpoint contains (needle hay : string) : bool :=
  String.prefix needle hay ||
  match hay with
  | EmptyString => false
  | String _ r => contains needle r
  end.

(** [s.endswith(suf)] *)
Fixpoint endswith (suf s : string) : bool :=
  String.eqb suf s ||
  match s with
  | EmptyString => false
  | String _ r => endswith suf r
  end.

(** [f"{n}"] for a non-negative integer. *)
Definition of_nat (n : nat) : string :=
  NilEmpty.string_of_uint (Nat.to_uint n).

End Str.

(** [x in xs] for a label and a sequence of labels. *)
Definition label_in (x : string) (xs : list string) : bool :=
  existsb (String.eqb x) xs.

(** ** Tables *)

(** A cell: missing ([NaN]/[None]), a number or a text.  The program never
    computes with cells; [pd.merge] compares them as keys, and there a
    missing key equals a missing key. *)
Inductive Cell : Type :=
| NA : Cell
| Num : Z -> Cell
| Txt : string -> Cell.

#[global] Instance Cell_eq_dec : EqDecision Cell.
Proof. solve_decision. Defined.

Abbreviation Row := (list Cell).

Record DataFrame : Type := mkDataFrame {
  columns : list string;
  rows : list Row
}.

(** [pd.DataFrame()] *)
Definition empty_frame : DataFrame := mkDataFrame [] [].

(** [len(df)] *)
Definition nrows (df : DataFrame) : nat := length (rows df).

(** [len(df.columns)] *)
Definition ncols (df : DataFrame) : nat := length (columns df).

(** [df.empty]: some axis has length zero. *)
Definition is_empty (df : DataFrame) : bool :=
  (ncols df =? 0)%nat || (nrows df =? 0)%nat.

(** ** Column normaliser (lines 73-85 of [merge_contractors]) *)

(** [normalize_name] *)
Definition normalize_name (idx : nat) : string :=
  "Contractor_" +:+ Str.of_nat idx.

(** [df.rename(columns=m)] on the labels: a label that is a key of [m] is
    replaced, every other label is kept; every column carrying the label is
    renamed. *)
Definition rename_labels (m : gmap string string) (cols : list string)
  : list string :=
  map (fun c => default c (m !! c)) cols.

Definition rename (m : gmap string string) (df : DataFrame) : DataFrame :=
  mkDataFrame (rename_labels m (columns df)) (rows df).

(** The test of line 78. *)
Definition rate_like (c : string) : bool :=
  Str.contains "rate" (Str.lower c).

(** Lines 76-79.  The [for] runs over the labels the table had when the loop
    started; each [rename] acts on the table as it is by then. *)
Definition standardize_rate (df : DataFrame) : DataFrame :=
  if negb (label_in "RATE" (columns df)) then
    fold_left
      (fun cur c => if rate_like c then rename {[ c := "RATE" ]} cur else cur)
      (columns df) df
  else df.

(** Lines 80-84. *)
Definition rename_map (contractor_name : string) (df : DataFrame)
  : gmap string string :=
  let m := ∅ in
  let m :=
    if label_in "RATE" (columns df)
    then <[ "RATE" := contractor_name +:+ "_RATE" ]> m else m in
  let m :=
    if label_in "AMOUNT" (columns df)
    then <[ "AMOUNT" := contractor_name +:+ "_AMOUNT" ]> m else m in
  m.

(** Lines 73-85: the table appended to [frames] for upload number [i]. *)
Definition normalize (i : nat) (df : DataFrame) : DataFrame :=
  let contractor_name := normalize_name i in
  let df := standardize_rate df in
  rename (rename_map contractor_name df) df.

(** ** Merger: the two pandas operations of the fold *)

Module Pd.

(** Position of the column labelled [k]. *)
Fixpoint index_of (k : string) (cols : list string) : nat :=
  match cols with
  | [] => 0
  | c :: r => if String.eqb c k then 0 else S (index_of k r)
  end.

Definition cell_at (j : nat) (r : Row) : Cell := default NA (r !! j).

(** The tuple of key cells of a row of a table with labels [cols]. *)
Definition key_of (keys cols : list string) (r : Row) : list Cell :=
  map (fun k => cell_at (index_of k cols) r) keys.

(** The entries of [xs] that stand under a label that is not a key. *)
Definition non_key {A : Type} (keys cols : list string) (xs : list A)
  : list A :=
  map snd (List.filter (fun p => negb (label_in (fst p) keys)) (zip cols xs)).

Definition same_key (keys : list string) (left right : DataFrame)
    (l r : Row) : bool :=
  bool_decide (key_of keys (columns left) l = key_of keys (columns right) r).

(** What one left row [l] gives against the right rows [R]: a row per
    partner, or a single row when it has none. *)
Definition expand {A B C : Type} (P : A -> B -> bool)
    (paired : A -> B -> C) (alone : A -> C) (R : list B) (l : A) : list C :=
  match List.filter (P l) R with
  | [] => [alone l]
  | ms => map (paired l) ms
  end.

(** Has [r] no partner among the left rows [L]? *)
Definition lonely {A B : Type} (P : A -> B -> bool) (L : list A) (r : B)
  : bool :=
  negb (existsb (fun l => P l r) L).

(** The number of matching pairs, counted left row by left row. *)
Definition pairs {A B : Type} (P : A -> B -> bool) (L : list A)
    (R : list B) : nat :=
  length (flat_map (fun l => List.filter (P l) R) L).

(** The rows the left rows give: each is followed by the other cells of
    its partner, or by missing cells. *)
Definition left_rows (keys : list string) (left right : DataFrame)
  : list Row :=
  flat_map
    (expand (same_key keys left right)
            (fun l r => l ++ non_key keys (columns right) r)
            (fun l => l ++ repeat NA (length (non_key keys (columns right)
                                                     (columns right))))
            (rows right))
    (rows left).

(** A right row without partner: its key under the key labels, missing
    cells under the other labels of [left], then its own other cells. *)
Definition right_only_row (keys : list string) (left right : DataFrame)
    (r : Row) : Row :=
  map (fun c => if label_in c keys
                then cell_at (index_of c (columns right)) r else NA)
      (columns left)
  ++ non_key keys (columns right) r.

Definition right_rows (keys : list string) (left right : DataFrame)
  : list Row :=
  map (right_only_row keys left right)
      (List.filter (lonely (same_key keys left right) (rows left))
                   (rows right)).

(** Labels of the result: the key labels once, where [left] has them; a
    label that both tables carry outside the keys gets [_x] on the left
    and [_y] on the right. *)
Definition merged_columns (keys : list string) (left right : DataFrame)
  : list string :=
  let lo := non_key keys (columns left) (columns left) in
  let ro := non_key keys (columns right) (columns right) in
  map (fun c => if negb (label_in c keys) && label_in c ro
                then c +:+ "_x" else c) (columns left)
  ++ map (fun c => if label_in c lo then c +:+ "_y" else c) ro.

(** [pd.merge(left, right, on=keys, how="outer")].  The rows are listed
    left rows first; pandas returns the same rows ordered by key. *)
Definition merge_outer (left right : DataFrame) (keys : list string)
  : DataFrame :=
  mkDataFrame (merged_columns keys left right)
              (left_rows keys left right ++ right_rows keys left right).

(** The rows of [df] reindexed on [0 .. n-1]: positions [df] lacks are
    filled with missing cells. *)
Definition reindex (n : nat) (df : DataFrame) : list Row :=
  rows df ++ repeat (repeat NA (ncols df)) (n - nrows df).

(** [pd.concat([left, right], axis=1)]: the union of the two row indexes,
    the columns of [left] followed by those of [right]. *)
Definition concat_columns (left right : DataFrame) : DataFrame :=
  let n := Nat.max (nrows left) (nrows right) in
  mkDataFrame (columns left ++ columns right)
              (zip_with app (reindex n left) (reindex n right)).

End Pd.

(** Lines 96-101: the key set of one fold step. *)
Definition step_keys (mode : string) (combined part : DataFrame)
  : list string :=
  if String.eqb mode "ITEM + DESCRIPTION" then
    List.filter
      (fun k => label_in k (columns combined) && label_in k (columns part))
      ["ITEM"; "DESCRIPTION"]
  else if String.eqb mode "DESCRIPTION only" then
    if label_in "DESCRIPTION" (columns combined)
       && label_in "DESCRIPTION" (columns part)
    then ["DESCRIPTION"] else []
  else
    if label_in "ITEM" (columns combined) && label_in "ITEM" (columns part)
    then ["ITEM"] else [].

(** Lines 96-106: the body of the merging loop. *)
Definition merge_step (mode : string) (combined part : DataFrame)
  : DataFrame :=
  let keys := step_keys mode combined part in
  match keys with
  | _ :: _ => Pd.merge_outer combined part keys
  | [] => Pd.concat_columns combined part
  end.

(** Lines 94-95: [combined] after the first [k] turns of the loop over
    [frames[1:]].  Without frames the loop is not reached; the empty table
    that [merge_contractors] then returns stands for the accumulator. *)
Definition combined_after (mode : string) (frames : list DataFrame) (k : nat)
  : DataFrame :=
  match frames with
  | [] => empty_frame
  | first :: parts => fold_left (merge_step mode) (take k parts) first
  end.

(** ** De-duplicator *)

(** One turn of the loop of [make_columns_unique] on [(seen, new_cols)]. *)
Definition unique_step (st : gmap string nat * list string) (col : string)
  : gmap string nat * list string :=
  let '(seen, new_cols) := st in
  match seen !! col with
  | None => (<[ col := 0 ]> seen, new_cols ++ [col])
  | Some n =>
      (<[ col := S n ]> seen,
       new_cols ++ [col +:+ "_" +:+ Str.of_nat (S n)])
  end.

Definition unique_labels (cols : list string) : list string :=
  snd (fold_left unique_step cols (∅, [])).

(** [make_columns_unique]: only [df.columns] is assigned. *)
Definition make_columns_unique (df : DataFrame) : DataFrame :=
  mkDataFrame (unique_labels (columns df)) (rows df).

(** The de-duplicator as the specification words it: a label that occurred
    [k] times to the left of a column is kept when [k] is zero and is
    followed by [_k] otherwise. *)
Definition occurrences (c : string) (l : list string) : nat :=
  length (List.filter (String.eqb c) l).

Fixpoint labels_after (before cols : list string) : list string :=
  match cols with
  | [] => []
  | c :: r =>
      (match occurrences c before with
       | 0 => c
       | S k => c +:+ "_" +:+ Str.of_nat (S k)
       end) :: labels_after (before ++ [c]) r
  end.

Definition spec_unique_labels (cols : list string) : list string :=
  labels_after [] cols.

(** [seen] records the labels of [before]: a label is a key once it has
    occurred, with the number of its later occurrences. *)
Definition seen_of (seen : gmap string nat) (before : list string) : Prop :=
  forall c, seen !! c = match occurrences c before with
                        | 0 => None
                        | S k => Some k
                        end.

(** ** Streamlit output *)

Inductive Event : Type :=
| st_error (msg : string)
| st_warning (msg : string)
| st_success (msg : string)
| st_dataframe (df : DataFrame)
| st_download_button (label : string) (workbook : DataFrame)
                     (file_name mime : string).

(** A computation that returns a value and appends to the page. *)
Definition UI (A : Type) : Type := A * list Event.

Definition ret {A : Type} (a : A) : UI A := (a, []).

Definition bind {A B : Type} (c : UI A) (k : A -> UI B) : UI B :=
  let '(a, out1) := c in
  let '(b, out2) := k a in
  (b, out1 ++ out2).

Definition emit (e : Event) : UI unit := (tt, [e]).

Notation "x <- c1 ;; c2" := (bind c1 (fun x => c2))
  (at level 100, c1 at next level, right associativity).
Notation "c1 ;; c2" := (bind c1 (fun _ => c2))
  (at level 100, right associativity).

(** [enumerate(l, start)] *)
Fixpoint enumerate {A : Type} (start : nat) (l : list A) : list (nat * A) :=
  match l with
  | [] => []
  | x :: r => (start, x) :: enumerate (S start) r
  end.

(** A [for] loop whose body updates [s] and may write to the page. *)
Fixpoint for_each {A S : Type} (body : S -> A -> UI S) (l : list A) (s : S)
  : UI S :=
  match l with
  | [] => ret s
  | x :: r => s' <- body s x ;; for_each body r s'
  end.

(** ** Loader and merger *)

Record UploadedFile : Type := mkUploadedFile {
  name : string;
  content : string
}.

(** What a pandas reader does with a file: it returns a table or raises an
    exception [e], of which the program uses [str(e)]. *)
Inductive Parsed : Type :=
| Returns (df : DataFrame)
| Raises (e : string).

Section App.

Variable read_csv : UploadedFile -> Parsed.
Variable read_excel : UploadedFile -> Parsed.

(** Lines 54-57: the reader call inside the [try]. *)
Definition parse (file : UploadedFile) : Parsed :=
  if Str.endswith ".csv" (Str.lower (name file))
  then read_csv file
  else read_excel file.

(** [load_table] *)
Definition load_table (file : UploadedFile) : UI DataFrame :=
  match parse file with
  | Returns df => ret df
  | Raises e =>
      emit (st_error ("Could not read " +:+ name file +:+ ": " +:+ e)) ;;
      ret empty_frame
  end.

(** Lines 69-87: the body of the loading loop on [frames]. *)
Definition load_body (frames : list DataFrame) (item : nat * UploadedFile)
  : UI (list DataFrame) :=
  let '(i, f) := item in
  df <- load_table f ;;
  if is_empty df then ret frames
  else ret (frames ++ [normalize i df]).

(** Lines 66-87. *)
Definition load_frames (files : list UploadedFile) : UI (list DataFrame) :=
  for_each load_body (enumerate 1 files) [].

(** Lines 89-108. *)
Definition merge_frames (frames : list DataFrame) (mode : string)
  : UI DataFrame :=
  match frames with
  | [] =>
      emit (st_warning "No valid files to merge!") ;;
      ret empty_frame
  | first :: parts => ret (fold_left (merge_step mode) parts first)
  end.

(** [merge_contractors] *)
Definition merge_contractors (files : list UploadedFile) (mode : string)
  : UI DataFrame :=
  frames <- load_frames files ;;
  merge_frames frames mode.

(** Lines 129-152, once the button is pressed. *)
Definition run_comparison (uploads : list UploadedFile)
    (match_mode : string) : UI unit :=
  result <- merge_contractors uploads match_mode ;;
  if negb (is_empty result) then
    emit (st_success "✅ Files merged successfully!") ;;
    let result := make_columns_unique result in
    emit (st_dataframe result) ;;
    emit (st_download_button
            "💾 Download Merged Excel" result "Merged_BOQ.xlsx"
            "application/vnd.openxmlformats-officedocument.spreadsheetml.sheet")
  else
    emit (st_warning "No data to display.").

End App.

(** ** Vocabulary of the further properties *)

(** The keys a match mode asks for: both for "ITEM + DESCRIPTION", the one
    it names for "DESCRIPTION only", and [ITEM] for any other mode. *)
Definition requested_keys (mode : string) : list string :=
  if String.eqb mode "ITEM + DESCRIPTION" then ["ITEM"; "DESCRIPTION"]
  else if String.eqb mode "DESCRIPTION only" then ["DESCRIPTION"]
  else ["ITEM"].

(** A table is rectangular when every row has one cell per column. *)
Definition rectangular (df : DataFrame) : Prop :=
  Forall (fun r : Row => length r = ncols df) (rows df).

(** pandas stores a numeric column as 64-bit integers or, once a cell of
    the column is missing or the column is compared with such a column, as
    floating-point numbers; an integer of magnitude at most [2^53] is the
    same number in both.  A table of such numbers is one on which joins
    and comparisons of keys are exact. *)
Definition exact_cell (c : Cell) : bool :=
  match c with
  | Num z => (Z.abs z <=? 2 ^ 53)%Z
  | _ => true
  end.

Definition exact_numbers (df : DataFrame) : bool :=
  forallb (forallb exact_cell) (rows df).

(** Is the byte ['_'] absent from [s]? *)
Fixpoint no_underscore (s : string) : bool :=
  match s with
  | EmptyString => true
  | String a r => negb (Ascii.eqb a "_") && no_underscore r
  end.

(** The label [make_columns_unique] gives the [k]-th repetition of [c]. *)
Definition suffixed (c : string) (k : nat) : string :=
  c +:+ "_" +:+ Str.of_nat k.

(** ** Sample inputs *)

Module Sample.

(** A quotation with two columns that mention a rate. *)
Definition two_rates : DataFrame :=
  mkDataFrame ["ITEM"; "Rate"; "Unit Rate"]
              [[Txt "1.1"; Num 10; Num 12]].

(** A quotation with a rate and an amount. *)
Definition priced : DataFrame :=
  mkDataFrame ["ITEM"; "DESCRIPTION"; "RATE_USD"; "AMOUNT"]
              [[Txt "1.1"; Txt "Excavation"; Num 10; Num 100];
               [Txt "1.2"; Txt "Concrete"; Num 20; Num 400]].

(** A quotation without any rate column. *)
Definition unpriced : DataFrame :=
  mkDataFrame ["ITEM"; "QTY"; "AMOUNT"] [[Txt "1.1"; Num 3; Num 30]].



(** Two quotations with one row per item. *)
Definition items_left : DataFrame :=
  mkDataFrame ["ITEM"; "Contractor_1_RATE"]
              [[Txt "1.1"; Num 10]; [Txt "1.2"; Num 12]].

Definition items_right : DataFrame :=
  mkDataFrame ["ITEM"; "Contractor_2_RATE"]
              [[Txt "1.2"; Num 11]; [Txt "1.3"; Num 13]].

(** Two quotations that share no key column. *)
Definition short_left : DataFrame :=
  mkDataFrame ["ITEM"; "Contractor_1_RATE"] [[Txt "1.1"; Num 10]].

Definition long_right : DataFrame :=
  mkDataFrame ["DESCRIPTION"; "Contractor_2_RATE"]
              [[Txt "Excavation"; Num 11]; [Txt "Concrete"; Num 13]].

(** A reader for the examples: a file without content cannot be parsed,
    any other file holds one priced item under the header it names. *)
Definition read (file : UploadedFile) : Parsed :=
  if String.eqb (content file) ""
  then Raises "No columns to parse from file"
  else Returns (mkDataFrame ["ITEM"; content file] [[Txt "1.1"; Num 10]]).

Definition corrupt : UploadedFile := mkUploadedFile "first.csv" "".
Definition quote_a : UploadedFile := mkUploadedFile "second.csv" "Rate".
Definition quote_b : UploadedFile := mkUploadedFile "third.xlsx" "RATE".
Definition quote_c : UploadedFile := mkUploadedFile "c.csv" "ITEM_1".
Definition quote_d : UploadedFile := mkUploadedFile "d.csv" "QTY".

(** A quotation with a column [RATE] and another that mentions a rate. *)
Definition exact_rate : DataFrame :=
  mkDataFrame ["ITEM"; "RATE"; "Unit Rate"] [[Txt "1.1"; Num 10; Num 12]].

(** A merged table in which two contractors carry a column [QTY]. *)
Definition repeated_labels : DataFrame :=
  mkDataFrame ["ITEM"; "QTY"; "QTY"] [[Txt "1.1"; Num 3; Num 4]].

(** A merged table in which a label already ends in [_1]. *)
Definition suffixed : DataFrame :=
  mkDataFrame ["X"; "X_1"; "X"] [[Num 1; Num 2; Num 3]].

End Sample.

(** * Properties *)

(** ** Labels and strings *)

Lemma label_in_true (x : string) (xs : list string) :
  label_in x xs = true <-> x ∈ xs.
Proof.
  unfold label_in. rewrite existsb_exists, list_elem_of_In. split.
  - intros (y & Hy & He). apply String.eqb_eq in He. by subst.
  - intros H. exists x. split; [done | apply String.eqb_refl].
Qed.

Lemma label_in_false (x : string) (xs : list string) :
  label_in x xs = false <-> x ∉ xs.
Proof.
  rewrite <- label_in_true. destruct (label_in x xs); naive_solver.
Qed.

Lemma append_cancel_l (p a b : string) : p +:+ a = p +:+ b -> a = b.
Proof. induction p as [|c p IH]; simpl; [done | intros [= H]; auto]. Qed.

Lemma lower_append (a b : string) :
  Str.lower (a +:+ b) = Str.lower a +:+ Str.lower b.
Proof. induction a as [|c a IH]; simpl; [done | by rewrite IH]. Qed.

Lemma contains_append_r (needle a b : string) :
  Str.contains needle b = true -> Str.contains needle (a +:+ b) = true.
Proof.
  intros H. induction a as [|c a IH]; simpl; [done |].
  rewrite IH. apply orb_true_r.
Qed.

Lemma rate_like_tagged (p : string) : rate_like (p +:+ "_RATE") = true.
Proof.
  unfold rate_like. rewrite lower_append. by apply contains_append_r.
Qed.

(** ** Normaliser *)

Lemma rename_rows (m : gmap string string) (df : DataFrame) :
  rows (rename m df) = rows df.
Proof. done. Qed.

Lemma label_in_cons (x c : string) (l : list string) :
  label_in x (c :: l) = String.eqb x c || label_in x l.
Proof. done. Qed.

Lemma rename_singleton_labels (c new : string) (cols : list string) :
  rename_labels {[ c := new ]} cols
  = map (fun x => if String.eqb x c then new else x) cols.
Proof.
  unfold rename_labels. apply map_ext. intros x.
  destruct (String.eqb_spec x c) as [->|Hne].
  - by rewrite lookup_singleton_eq.
  - by rewrite lookup_singleton_ne.
Qed.

Lemma rate_loop_spec (l : list string) (df : DataFrame) :
  let out :=
    fold_left
      (fun cur c => if rate_like c then rename {[ c := "RATE" ]} cur else cur)
      l df in
  columns out
  = map (fun x => if rate_like x && label_in x l then "RATE" else x)
        (columns df)
  /\ rows out = rows df.
Proof.
  revert df. induction l as [|c l IH]; intros df; cbn [fold_left].
  - split; [|done]. rewrite <- (map_id (columns df)) at 1.
    apply map_ext. intros x. by rewrite andb_false_r.
  - destruct (rate_like c) eqn:Hc.
    + destruct (IH (rename {[ c := "RATE" ]} df)) as [Hcols Hrows].
      split; [|by rewrite Hrows].
      rewrite Hcols. cbn [rename columns].
      rewrite rename_singleton_labels, map_map.
      apply map_ext. intros x. rewrite label_in_cons.
      destruct (String.eqb_spec x c) as [->|Hne].
      * rewrite Hc. cbn [andb orb].
        by destruct (rate_like "RATE" && label_in "RATE" l).
      * done.
    + destruct (IH df) as [Hcols Hrows]. split; [|done].
      rewrite Hcols. apply map_ext. intros x. rewrite label_in_cons.
      destruct (String.eqb_spec x c) as [->|Hne]; [|done].
      by rewrite Hc.
Qed.

Lemma standardize_rate_rows (df : DataFrame) :
  rows (standardize_rate df) = rows df.
Proof.
  unfold standardize_rate. destruct (negb _); [|done].
  apply rate_loop_spec.
Qed.

Lemma standardize_rate_present (df : DataFrame) :
  label_in "RATE" (columns df) = true -> standardize_rate df = df.
Proof. unfold standardize_rate. by intros ->. Qed.

Lemma standardize_rate_absent (df : DataFrame) :
  label_in "RATE" (columns df) = false ->
  columns (standardize_rate df)
  = map (fun c => if rate_like c then "RATE" else c) (columns df).
Proof.
  unfold standardize_rate. intros ->. simpl.
  destruct (rate_loop_spec (columns df) df) as [-> _].
  apply map_ext_in. intros x Hx.
  apply list_elem_of_In, label_in_true in Hx. rewrite Hx.
  by rewrite andb_true_r.
Qed.

Lemma lookup_map {A B : Type} (f : A -> B) (l : list A) (j : nat) :
  map f l !! j = f <$> (l !! j).
Proof. apply (list_lookup_fmap f l j). Qed.

Lemma rename_map_lookup (contractor_name : string) (df : DataFrame)
    (x : string) :
  x ∈ columns df ->
  default x (rename_map contractor_name df !! x)
  = if String.eqb x "RATE" then contractor_name +:+ "_RATE"
    else if String.eqb x "AMOUNT" then contractor_name +:+ "_AMOUNT"
    else x.
Proof.
  intros Hx. unfold rename_map.
  destruct (String.eqb_spec x "RATE") as [->|HR].
  - apply label_in_true in Hx as ->.
    destruct (label_in "AMOUNT" (columns df)).
    + rewrite lookup_insert_ne by done. by rewrite lookup_insert_eq.
    + by rewrite lookup_insert_eq.
  - destruct (String.eqb_spec x "AMOUNT") as [->|HA].
    + apply label_in_true in Hx as ->. by rewrite lookup_insert_eq.
    + destruct (label_in "AMOUNT" (columns df)),
               (label_in "RATE" (columns df));
        by rewrite ?lookup_insert_ne, ?lookup_empty by done.
Qed.

(** The labels [normalize] leaves, from those the rate scan leaves. *)
Lemma normalize_columns (i : nat) (df : DataFrame) :
  columns (normalize i df)
  = map (fun x =>
           if String.eqb x "RATE" then normalize_name i +:+ "_RATE"
           else if String.eqb x "AMOUNT" then normalize_name i +:+ "_AMOUNT"
           else x)
        (columns (standardize_rate df)).
Proof.
  unfold normalize, rename, rename_labels. cbn [columns].
  apply map_ext_in. intros x Hx. apply rename_map_lookup.
  by apply list_elem_of_In.
Qed.

Lemma normalize_rows (i : nat) (df : DataFrame) :
  rows (normalize i df) = rows df.
Proof. unfold normalize. cbn. apply standardize_rate_rows. Qed.

(** A table whose only rate-like column is [c] gets that column tagged. *)
Lemma normalize_single_rate (i : nat) (df : DataFrame)
    (pre post : list string) (c : string) :
  rate_like c = true ->
  columns df = pre ++ c :: post ->
  (forall x, x ∈ pre ++ post -> rate_like x = false) ->
  columns (normalize i df) !! length pre
  = Some (normalize_name i +:+ "_RATE").
Proof.
  intros Hc Hcols Hothers.
  rewrite normalize_columns, lookup_map.
  assert (columns (standardize_rate df) !! length pre = Some "RATE") as ->;
    [|done].
  destruct (label_in "RATE" (columns df)) eqn:HR.
  - rewrite standardize_rate_present by done.
    apply label_in_true in HR. rewrite Hcols in *.
    rewrite list_lookup_middle by done. f_equal.
    apply elem_of_app in HR as [HR|HR].
    + specialize (Hothers "RATE"). rewrite elem_of_app in Hothers.
      by specialize (Hothers (or_introl HR)).
    + apply elem_of_cons in HR as [HR|HR]; [done|].
      specialize (Hothers "RATE"). rewrite elem_of_app in Hothers.
      by specialize (Hothers (or_intror HR)).
  - rewrite standardize_rate_absent by done.
    rewrite Hcols, lookup_map, list_lookup_middle by done.
    cbn. by rewrite Hc.
Qed.

(** C3, as the code has it: without a column [RATE], every column whose
    label contains "rate" (whatever the case) is renamed to [RATE], so that
    several columns are renamed when several match; the other columns keep
    their labels, and no cell changes. *)
Theorem standardize_rate_renames_every_match (df : DataFrame) :
  label_in "RATE" (columns df) = false ->
  columns (standardize_rate df)
  = map (fun c => if rate_like c then "RATE" else c) (columns df)
  /\ rows (standardize_rate df) = rows df.
Proof.
  intros H. split.
  - by apply standardize_rate_absent.
  - apply standardize_rate_rows.
Qed.

(** C3, as stated, fails: in a table with the labels [ITEM], [Rate] and
    [Unit Rate] the scan renames both rate columns, and the later one does
    not keep its label. *)
Lemma standardize_rate_two_matches :
  label_in "RATE" (columns Sample.two_rates) = false
  /\ columns (standardize_rate Sample.two_rates) = ["ITEM"; "RATE"; "RATE"]
  /\ columns (standardize_rate Sample.two_rates) !! 2 <> Some "Unit Rate".
Proof. by vm_compute. Qed.

Lemma standardize_rate_renames_every_match_witness :
  label_in "RATE" (columns Sample.two_rates) = false
  /\ columns (standardize_rate Sample.two_rates)
     = map (fun c => if rate_like c then "RATE" else c)
           (columns Sample.two_rates).
Proof.
  split; [reflexivity |].
  apply (standardize_rate_renames_every_match Sample.two_rates).
  reflexivity.
Defined.

(** C4: at upload position [i], a table whose only rate-like column is
    labelled [Rate], [rate], [RATE] or [RATE_USD] has that column renamed to
    [Contractor_i_RATE]; a column labelled exactly [AMOUNT] becomes
    [Contractor_i_AMOUNT]; a table with no label containing "rate" keeps
    its labels but for [AMOUNT], and has neither a [RATE] nor a
    [Contractor_i_RATE] column. *)
Theorem normalize_tags_rate_and_amount (i : nat) (df : DataFrame) :
  (forall pre c post,
      c ∈ ["Rate"; "rate"; "RATE"; "RATE_USD"] ->
      columns df = pre ++ c :: post ->
      (forall x, x ∈ pre ++ post -> rate_like x = false) ->
      columns (normalize i df) !! length pre
      = Some ("Contractor_" +:+ Str.of_nat i +:+ "_RATE"))
  /\ (forall j,
        columns df !! j = Some "AMOUNT" ->
        columns (normalize i df) !! j
        = Some ("Contractor_" +:+ Str.of_nat i +:+ "_AMOUNT"))
  /\ ((forall x, x ∈ columns df -> rate_like x = false) ->
      columns (normalize i df)
      = map (fun c => if String.eqb c "AMOUNT"
                      then "Contractor_" +:+ Str.of_nat i +:+ "_AMOUNT"
                      else c)
            (columns df)
      /\ ("RATE" ∉ columns (normalize i df))
      /\ ("Contractor_" +:+ Str.of_nat i +:+ "_RATE")
           ∉ columns (normalize i df)).
Proof.
  assert (forall a b, "Contractor_" +:+ a +:+ b = ("Contractor_" +:+ a) +:+ b)
    as Hassoc by done.
  rewrite !Hassoc. fold (normalize_name i).
  split; [|split].
  - intros pre c post Hc Hcols Hothers.
    apply (normalize_single_rate i df pre post c); [|done..].
    repeat (apply elem_of_cons in Hc as [->|Hc]; [by vm_compute|]).
    by apply elem_of_nil in Hc.
  - intros j Hj. rewrite normalize_columns, lookup_map.
    assert (columns (standardize_rate df) !! j = Some "AMOUNT") as ->; [|done].
    destruct (label_in "RATE" (columns df)) eqn:HR.
    + by rewrite standardize_rate_present.
    + rewrite standardize_rate_absent, lookup_map, Hj by done. done.
  - intros Hnone.
    assert (label_in "RATE" (columns df) = false) as HR.
    { apply label_in_false. intros Hin. by specialize (Hnone _ Hin). }
    assert (columns (standardize_rate df) = columns df) as Hstd.
    { rewrite standardize_rate_absent by done.
      rewrite <- (map_id (columns df)) at 2. apply map_ext_in.
      intros x Hx. apply list_elem_of_In in Hx. by rewrite (Hnone x Hx). }
    assert (columns (normalize i df)
            = map (fun c => if String.eqb c "AMOUNT"
                            then normalize_name i +:+ "_AMOUNT" else c)
                  (columns df)) as Hcols.
    { rewrite normalize_columns, Hstd. apply map_ext_in. intros x Hx.
      apply list_elem_of_In in Hx.
      destruct (String.eqb_spec x "RATE") as [->|]; [|done].
      by specialize (Hnone _ Hx). }
    split; [done|].
    rewrite Hcols, !list_elem_of_In, !in_map_iff.
    split; intros (x & Hy & Hx); apply list_elem_of_In in Hx;
      specialize (Hnone _ Hx);
      destruct (String.eqb_spec x "AMOUNT") as [->|_].
    + discriminate Hy.
    + by subst x.
    + by apply append_cancel_l in Hy.
    + subst x. by rewrite rate_like_tagged in Hnone.
Qed.

Lemma normalize_tags_rate_and_amount_witness :
  columns (normalize 2 Sample.priced) !! 2 = Some "Contractor_2_RATE"
  /\ columns (normalize 2 Sample.priced) !! 3 = Some "Contractor_2_AMOUNT"
  /\ "Contractor_2_RATE" ∉ columns (normalize 2 Sample.unpriced).
Proof.
  split; [|split].
  - apply (proj1 (normalize_tags_rate_and_amount 2 Sample.priced)
             ["ITEM"; "DESCRIPTION"] "RATE_USD" ["AMOUNT"]).
    + do 3 apply list_elem_of_further. apply list_elem_of_here.
    + reflexivity.
    + intros x Hx.
      repeat (apply elem_of_cons in Hx as [->|Hx]; [reflexivity|]).
      by apply elem_of_nil in Hx.
  - apply (proj1 (proj2 (normalize_tags_rate_and_amount 2 Sample.priced)) 3).
    reflexivity.
  - apply (proj2 (proj2 (normalize_tags_rate_and_amount 2 Sample.unpriced))).
    intros x Hx.
    repeat (apply elem_of_cons in Hx as [->|Hx]; [reflexivity|]).
    by apply elem_of_nil in Hx.
Defined.

(** ** Counting the rows of an outer join *)

Section JoinCount.

Context {A B C : Type}.
Variable P : A -> B -> bool.
Variable paired : A -> B -> C.
Variable alone : A -> C.

Local Abbreviation expand := (Pd.expand P paired alone).
Local Abbreviation pairs := (Pd.pairs P).
Local Abbreviation lonely := (Pd.lonely P).

Lemma expand_length (R : list B) (l : A) :
  length (expand R l) = Nat.max 1 (length (List.filter (P l) R)).
Proof.
  unfold Pd.expand. destruct (List.filter (P l) R) as [|m ms]; [done|].
  rewrite length_map. simpl. lia.
Qed.

Lemma left_count_ge (L : list A) (R : list B) :
  length L <= length (flat_map (expand R) L).
Proof.
  induction L as [|l L IH]; simpl; [done|].
  rewrite length_app, expand_length. lia.
Qed.

Lemma left_count_ge_pairs (L : list A) (R : list B) :
  pairs L R <= length (flat_map (expand R) L).
Proof.
  unfold Pd.pairs. induction L as [|l L IH]; simpl; [done|].
  rewrite !length_app, expand_length. lia.
Qed.


Lemma pairs_cons (L : list A) (r : B) (R : list B) :
  pairs L (r :: R)
  = length (List.filter (fun l => P l r) L) + pairs L R.
Proof.
  unfold Pd.pairs. induction L as [|l L IH]; cbn [flat_map]; [done|].
  rewrite !length_app, IH. cbn [List.filter].
  destruct (P l r); simpl; lia.
Qed.

Lemma filter_length_pos {X : Type} (p : X -> bool) (l : list X) :
  existsb p l = true -> 1 <= length (List.filter p l).
Proof.
  induction l as [|x l IH]; simpl; [done|].
  destruct (p x); simpl; [lia | auto].
Qed.

Lemma filter_length_zero {X : Type} (p : X -> bool) (l : list X) :
  existsb p l = false -> length (List.filter p l) = 0.
Proof.
  induction l as [|x l IH]; simpl; [done|].
  destruct (p x); simpl; [done | auto].
Qed.


(** Every right row is in the result: with a partner or alone. *)
Lemma right_count_ge (L : list A) (R : list B) :
  length R <= pairs L R + length (List.filter (lonely L) R).
Proof.
  induction R as [|r R IH]; [simpl; lia|].
  rewrite pairs_cons. simpl. unfold Pd.lonely at 1.
  destruct (existsb (fun l => P l r) L) eqn:E; simpl.
  - apply filter_length_pos in E. lia.
  - lia.
Qed.



Lemma join_count_ge (L : list A) (R : list B) :
  Nat.max (length L) (length R)
  <= length (flat_map (expand R) L) + length (List.filter (lonely L) R).
Proof.
  pose proof (left_count_ge L R). pose proof (left_count_ge_pairs L R).
  pose proof (right_count_ge L R). lia.
Qed.


End JoinCount.

(** At most one element of a list without repeated keys has a given key. *)
Lemma unique_key_filter {X K : Type} `{EqDecision K} (key : X -> K)
    (p : X -> bool) (k : K) (l : list X) :
  (forall x, p x = true -> key x = k) ->
  NoDup (map key l) ->
  length (List.filter p l) <= 1.
Proof.
  intros Hp. induction l as [|x l IH]; simpl; [lia|].
  intros Hnd. apply NoDup_cons in Hnd as [Hx Hnd].
  destruct (p x) eqn:E; [|auto]. simpl.
  enough (List.filter p l = []) as -> by (simpl; lia).
  destruct (List.filter p l) as [|y ys] eqn:F; [done|].
  exfalso. apply Hx.
  assert (In y (List.filter p l)) as Hy by (rewrite F; by left).
  apply filter_In in Hy as [Hy Hpy].
  apply list_elem_of_In, in_map_iff. exists y. split; [|done].
  by rewrite (Hp x E), (Hp y Hpy).
Qed.

(** ** Merger *)

Lemma merge_outer_nrows (left right : DataFrame) (keys : list string) :
  nrows (Pd.merge_outer left right keys)
  = length (Pd.left_rows keys left right)
    + length (List.filter
                (Pd.lonely (Pd.same_key keys left right) (rows left))
                (rows right)).
Proof.
  unfold nrows, Pd.merge_outer, Pd.right_rows. cbn [rows].
  by rewrite length_app, length_map.
Qed.

Lemma reindex_length (n : nat) (df : DataFrame) :
  nrows df <= n -> length (Pd.reindex n df) = n.
Proof.
  intros H. unfold Pd.reindex. rewrite length_app, repeat_length.
  unfold nrows in *. lia.
Qed.

Lemma concat_columns_nrows (left right : DataFrame) :
  nrows (Pd.concat_columns left right)
  = Nat.max (nrows left) (nrows right).
Proof.
  unfold Pd.concat_columns, nrows at 1. cbn [rows].
  rewrite length_zip_with, !reindex_length by lia. lia.
Qed.

Lemma merge_step_keys (mode : string) (combined part : DataFrame) :
  step_keys mode combined part <> [] ->
  merge_step mode combined part
  = Pd.merge_outer combined part (step_keys mode combined part).
Proof. unfold merge_step. by destruct (step_keys mode combined part). Qed.

Lemma merge_step_no_keys (mode : string) (combined part : DataFrame) :
  step_keys mode combined part = [] ->
  merge_step mode combined part = Pd.concat_columns combined part.
Proof. unfold merge_step. by intros ->. Qed.

Lemma merge_step_nrows_ge (mode : string) (combined part : DataFrame) :
  Nat.max (nrows combined) (nrows part)
  <= nrows (merge_step mode combined part).
Proof.
  destruct (step_keys mode combined part) as [|k ks] eqn:E.
  - rewrite merge_step_no_keys, concat_columns_nrows by done. lia.
  - rewrite merge_step_keys, merge_outer_nrows by (by rewrite E).
    apply join_count_ge.
Qed.







(** ** The page monad *)

Lemma fst_bind {A B : Type} (c : UI A) (k : A -> UI B) :
  fst (bind c k) = fst (k (fst c)).
Proof. unfold bind. destruct c as [a out1]. simpl. by destruct (k a). Qed.

Lemma snd_bind {A B : Type} (c : UI A) (k : A -> UI B) :
  snd (bind c k) = snd c ++ snd (k (fst c)).
Proof. unfold bind. destruct c as [a out1]. simpl. by destruct (k a). Qed.

Lemma combined_after_step (mode : string) (frames : list DataFrame)
    (k : nat) :
  nrows (combined_after mode frames k)
  <= nrows (combined_after mode frames (S k)).
Proof.
  destruct frames as [|first parts]; [done|]. unfold combined_after.
  destruct (parts !! k) as [part|] eqn:E.
  - rewrite (take_S_r _ _ _ E), fold_left_app. cbn [fold_left].
    pose proof (merge_step_nrows_ge mode
                  (fold_left (merge_step mode) (take k parts) first) part).
    lia.
  - apply lookup_ge_None in E. by rewrite !take_ge by lia.
Qed.

Lemma merge_frames_combined_after (mode : string) (frames : list DataFrame) :
  fst (merge_frames frames mode)
  = combined_after mode frames (length frames - 1).
Proof.
  destruct frames as [|first parts]; [done|]. simpl.
  by rewrite take_ge by lia.
Qed.

(** C2: whatever the uploads and the match mode, the accumulator of the
    fold never loses rows: after each turn of the loop (outer join or
    concatenation) it has at least as many rows as before, the table
    [merge_contractors] returns being the accumulator after the last
    turn. *)
Theorem merge_rows_never_decrease
    (read_csv read_excel : UploadedFile -> Parsed)
    (files : list UploadedFile) (mode : string) :
  let frames := fst (load_frames read_csv read_excel files) in
  (forall combined part,
      nrows combined <= nrows (merge_step mode combined part))
  /\ (forall k, nrows (combined_after mode frames k)
                <= nrows (combined_after mode frames (S k)))
  /\ fst (merge_contractors read_csv read_excel files mode)
     = combined_after mode frames (length frames - 1).
Proof.
  intros frames. split; [|split].
  - intros combined part.
    pose proof (merge_step_nrows_ge mode combined part). lia.
  - apply combined_after_step.
  - unfold merge_contractors. rewrite fst_bind.
    apply merge_frames_combined_after.
Qed.

(** ** Loader *)

Lemma enumerate_app {A : Type} (i : nat) (a b : list A) :
  enumerate i (a ++ b) = enumerate i a ++ enumerate (i + length a) b.
Proof.
  revert i. induction a as [|x a IH]; intros i; simpl.
  - by rewrite Nat.add_0_r.
  - rewrite IH. do 3 f_equal. lia.
Qed.

Lemma enumerate_lookup {A : Type} (i k : nat) (l : list A) (x : A) :
  l !! k = Some x -> enumerate i l !! k = Some (i + k, x).
Proof.
  revert i k. induction l as [|y l IH]; intros i k; [done|].
  destruct k as [|k]; simpl.
  - intros [= ->]. by rewrite Nat.add_0_r.
  - intros H. rewrite (IH (S i) k H). do 2 f_equal. lia.
Qed.

Section Loader.

Variable read_csv : UploadedFile -> Parsed.
Variable read_excel : UploadedFile -> Parsed.

Local Abbreviation load := (load_table read_csv read_excel).
Local Abbreviation body := (load_body read_csv read_excel).

(** What the loop appends to [frames] for one upload. *)
Local Abbreviation kept :=
  (fun p : nat * UploadedFile =>
     if is_empty (fst (load (snd p))) then []
     else [normalize (fst p) (fst (load (snd p)))]).

Lemma load_table_raises (file : UploadedFile) (e : string) :
  parse read_csv read_excel file = Raises e ->
  load file
  = (empty_frame,
     [st_error ("Could not read " +:+ name file +:+ ": " +:+ e)]).
Proof. unfold load_table. by intros ->. Qed.

Lemma load_table_returns (file : UploadedFile) (df : DataFrame) :
  parse read_csv read_excel file = Returns df ->
  load file = (df, []).
Proof. unfold load_table. by intros ->. Qed.

(** The loader writes nothing but error messages. *)
Lemma load_table_output (file : UploadedFile) (ev : Event) :
  ev ∈ snd (load file) -> exists msg, ev = st_error msg.
Proof.
  unfold load_table. destruct (parse _ _ file) as [df|e]; simpl.
  - by intros ?%elem_of_nil.
  - intros [->|?%elem_of_nil]%elem_of_cons; [eauto | done].
Qed.

Lemma load_body_fst (frames : list DataFrame) (p : nat * UploadedFile) :
  fst (body frames p) = frames ++ kept p.
Proof.
  destruct p as [i f]. unfold load_body. rewrite fst_bind. simpl.
  destruct (is_empty _); simpl; [by rewrite app_nil_r | done].
Qed.

Lemma load_body_snd (frames : list DataFrame) (p : nat * UploadedFile) :
  snd (body frames p) = snd (load (snd p)).
Proof.
  destruct p as [i f]. unfold load_body. rewrite snd_bind. simpl.
  destruct (is_empty _); simpl; by rewrite app_nil_r.
Qed.

Lemma load_loop_fst (items : list (nat * UploadedFile))
    (frames : list DataFrame) :
  fst (for_each body items frames) = frames ++ flat_map kept items.
Proof.
  revert frames. induction items as [|p items IH]; intros frames.
  - simpl. by rewrite app_nil_r.
  - cbn [for_each flat_map]. rewrite fst_bind, IH, load_body_fst.
    by rewrite <- app_assoc.
Qed.

Lemma load_loop_snd (items : list (nat * UploadedFile))
    (frames : list DataFrame) :
  snd (for_each body items frames)
  = flat_map (fun p => snd (load (snd p))) items.
Proof.
  revert frames. induction items as [|p items IH]; intros frames.
  - done.
  - cbn [for_each flat_map]. by rewrite snd_bind, IH, load_body_snd.
Qed.

Lemma load_loop_none (i : nat) (files : list UploadedFile) :
  (forall f, f ∈ files -> is_empty (fst (load f)) = true) ->
  flat_map kept (enumerate i files) = [].
Proof.
  revert i. induction files as [|f files IH]; intros i Hall; [done|].
  cbn [enumerate flat_map fst snd].
  rewrite (Hall f) by apply list_elem_of_here.
  apply IH. intros g Hg. apply Hall. by apply list_elem_of_further.
Qed.

Lemma load_loop_output (i : nat) (files : list UploadedFile) :
  flat_map (fun p => snd (load (snd p))) (enumerate i files)
  = flat_map (fun f => snd (load f)) files.
Proof.
  revert i. induction files as [|f files IH]; intros i; [done|].
  cbn [enumerate flat_map snd]. by rewrite IH.
Qed.

End Loader.

Lemma pair_eq {A B : Type} (p : A * B) (a : A) (b : B) :
  fst p = a -> snd p = b -> p = (a, b).
Proof. destruct p. simpl. by intros -> ->. Qed.

(** C7: when parsing a file raises, [load_table] writes an error message
    that names the file and returns the empty table (no row, no column)
    instead of raising; [merge_contractors] then skips that file and goes
    on with the others.  In terms of what the readers do with the other
    uploads: the frames are the non-empty tables parsed from the uploads
    before and after the file, each normalised under its own upload
    position; the result is the first frame folded with the others by
    [merge_step], or the empty table with the warning when no frame is
    left; and the page shows the error of the file between the errors of
    the uploads before it and those after it. *)
Theorem failed_file_reported_and_skipped
    (read_csv read_excel : UploadedFile -> Parsed)
    (file : UploadedFile) (e : string) :
  parse read_csv read_excel file = Raises e ->
  let report := st_error ("Could not read " +:+ name file +:+ ": " +:+ e) in
  load_table read_csv read_excel file = (empty_frame, [report])
  /\ nrows empty_frame = 0
  /\ ncols empty_frame = 0
  /\ forall (before after : list UploadedFile) (mode : string),
       let table_of f :=
         match parse read_csv read_excel f with
         | Returns df => df
         | Raises _ => empty_frame
         end in
       let errors_of f :=
         match parse read_csv read_excel f with
         | Returns _ => []
         | Raises e' =>
             [st_error ("Could not read " +:+ name f +:+ ": " +:+ e')]
         end in
       let kept p :=
         if is_empty (table_of (snd p)) then []
         else [normalize (fst p) (table_of (snd p))] in
       let frames :=
         flat_map kept (enumerate 1 before)
         ++ flat_map kept (enumerate (length before + 2) after) in
       let errors :=
         flat_map errors_of before ++ [report] ++ flat_map errors_of after in
       merge_contractors read_csv read_excel (before ++ file :: after) mode
       = match frames with
         | [] =>
             (empty_frame, errors ++ [st_warning "No valid files to merge!"])
         | first :: parts =>
             (fold_left (merge_step mode) parts first, errors)
         end.
Proof.
  intros Hraise report.
  pose proof (load_table_raises _ _ _ _ Hraise) as Hload. fold report in Hload.
  split; [done|]. split; [done|]. split; [done|].
  intros before after mode table_of errors_of kept frames errors.
  assert (forall f, load_table read_csv read_excel f
                    = (table_of f, errors_of f)) as Hparse.
  { intros f. unfold load_table, table_of, errors_of.
    by destruct (parse read_csv read_excel f). }
  assert (forall n l,
             flat_map
               (fun p : nat * UploadedFile =>
                  if is_empty (fst (load_table read_csv read_excel (snd p)))
                  then []
                  else [normalize (fst p)
                          (fst (load_table read_csv read_excel (snd p)))])
               (enumerate n l)
             = flat_map kept (enumerate n l)) as Hkept.
  { intros n l. apply flat_map_ext. intros p. unfold kept.
    by rewrite Hparse. }
  assert (forall n l,
             flat_map
               (fun p : nat * UploadedFile =>
                  snd (load_table read_csv read_excel (snd p)))
               (enumerate n l)
             = flat_map errors_of l) as Herrors.
  { intros n l. rewrite load_loop_output. apply flat_map_ext. intros f.
    by rewrite Hparse. }
  assert (fst (load_frames read_csv read_excel (before ++ file :: after))
          = frames) as Hframes.
  { unfold load_frames, frames. rewrite load_loop_fst, enumerate_app.
    cbn [enumerate app]. rewrite flat_map_app. cbn [flat_map fst snd].
    rewrite Hload, !Hkept. cbn [fst is_empty ncols empty_frame columns].
    cbn. do 3 f_equal. lia. }
  assert (snd (load_frames read_csv read_excel (before ++ file :: after))
          = errors) as Hout.
  { unfold load_frames, errors. rewrite load_loop_snd, enumerate_app.
    cbn [enumerate]. rewrite flat_map_app. cbn [flat_map fst snd].
    by rewrite Hload, !Herrors. }
  unfold merge_contractors.
  destruct frames as [|first parts] eqn:E; apply pair_eq.
  - by rewrite fst_bind, Hframes.
  - by rewrite snd_bind, Hframes, Hout.
  - by rewrite fst_bind, Hframes.
  - rewrite snd_bind, Hframes, Hout. cbn. by rewrite app_nil_r.
Qed.

Lemma failed_file_reported_and_skipped_witness :
  parse Sample.read Sample.read Sample.corrupt
  = Raises "No columns to parse from file"
  /\ merge_contractors Sample.read Sample.read
       ([Sample.quote_a] ++ Sample.corrupt :: [Sample.quote_b]) "ITEM only"
     = (mkDataFrame ["ITEM"; "Contractor_1_RATE"; "Contractor_3_RATE"]
                    [[Txt "1.1"; Num 10; Num 10]],
        [st_error "Could not read first.csv: No columns to parse from file"]).
Proof.
  assert (parse Sample.read Sample.read Sample.corrupt
          = Raises "No columns to parse from file") as Hraise by reflexivity.
  split; [exact Hraise|].
  rewrite (proj2 (proj2 (proj2
             (failed_file_reported_and_skipped Sample.read Sample.read
                Sample.corrupt _ Hraise)))
             [Sample.quote_a] [Sample.quote_b] "ITEM only").
  reflexivity.
Defined.

(** C8: when every upload fails to load or loads as an empty table,
    [merge_contractors] writes the warning "No valid files to merge!" after
    the loaders' messages and returns the empty table, and the run then
    shows neither a table nor a download, only its own warning. *)
Theorem no_valid_files_warning
    (read_csv read_excel : UploadedFile -> Parsed)
    (files : list UploadedFile) (mode : string) :
  (forall f, f ∈ files ->
             is_empty (fst (load_table read_csv read_excel f)) = true) ->
  let errors :=
    flat_map (fun f => snd (load_table read_csv read_excel f)) files in
  merge_contractors read_csv read_excel files mode
  = (empty_frame, errors ++ [st_warning "No valid files to merge!"])
  /\ (forall ev, ev ∈ errors -> exists msg, ev = st_error msg)
  /\ run_comparison read_csv read_excel files mode
     = (tt, errors ++ [st_warning "No valid files to merge!";
                       st_warning "No data to display."]).
Proof.
  intros Hall errors.
  assert (fst (load_frames read_csv read_excel files) = []) as Hframes.
  { unfold load_frames. rewrite load_loop_fst. by apply load_loop_none. }
  assert (snd (load_frames read_csv read_excel files) = errors) as Hout.
  { unfold load_frames, errors. by rewrite load_loop_snd, load_loop_output. }
  assert (merge_contractors read_csv read_excel files mode
          = (empty_frame, errors ++ [st_warning "No valid files to merge!"]))
    as Hmerge.
  { apply pair_eq; unfold merge_contractors.
    - by rewrite fst_bind, Hframes.
    - by rewrite snd_bind, Hframes, Hout. }
  split; [done|]. split.
  - intros ev Hev. unfold errors in Hev.
    apply list_elem_of_In, in_flat_map in Hev as (f & _ & Hev).
    apply list_elem_of_In in Hev. by apply load_table_output in Hev.
  - unfold run_comparison. rewrite Hmerge. cbn.
    by rewrite <- app_assoc.
Qed.

Lemma no_valid_files_warning_witness :
  run_comparison Sample.read Sample.read [Sample.corrupt; Sample.corrupt]
                 "ITEM only"
  = (tt,
     [st_error "Could not read first.csv: No columns to parse from file";
      st_error "Could not read first.csv: No columns to parse from file";
      st_warning "No valid files to merge!";
      st_warning "No data to display."]).
Proof.
  apply (no_valid_files_warning Sample.read Sample.read
           [Sample.corrupt; Sample.corrupt] "ITEM only").
  intros f Hf.
  repeat (apply elem_of_cons in Hf as [->|Hf]; [reflexivity|]).
  by apply elem_of_nil in Hf.
Defined.

(** C9: the index in [Contractor_i_RATE] and [Contractor_i_AMOUNT] is the
    file's position among all uploads, counted from one: the frames are the
    non-empty loaded tables, each normalised under the position [enumerate]
    pairs it with, and the upload at offset [k] is paired with [k + 1]
    whatever became of the uploads before it.  A failed or empty upload
    therefore leaves a gap in the numbering. *)
Theorem contractor_index_is_upload_position
    (read_csv read_excel : UploadedFile -> Parsed)
    (files : list UploadedFile) :
  let loaded f := fst (load_table read_csv read_excel f) in
  let frames := fst (load_frames read_csv read_excel files) in
  frames
  = flat_map (fun p => if is_empty (loaded (snd p)) then []
                       else [normalize (fst p) (loaded (snd p))])
             (enumerate 1 files)
  /\ (forall k f, files !! k = Some f ->
                  enumerate 1 files !! k = Some (k + 1, f))
  /\ (forall k f, files !! k = Some f ->
                  is_empty (loaded f) = false ->
                  normalize (k + 1) (loaded f) ∈ frames).
Proof.
  intros loaded frames.
  assert (frames
          = flat_map (fun p => if is_empty (loaded (snd p)) then []
                               else [normalize (fst p) (loaded (snd p))])
                     (enumerate 1 files)) as Hframes.
  { unfold frames, load_frames. by rewrite load_loop_fst. }
  assert (forall k f, files !! k = Some f ->
                      enumerate 1 files !! k = Some (k + 1, f)) as Hpos.
  { intros k f Hk. rewrite (enumerate_lookup 1 k files f Hk).
    do 2 f_equal. lia. }
  split; [done|]. split; [done|].
  intros k f Hk Hfull. rewrite Hframes.
  apply list_elem_of_In, in_flat_map. exists (k + 1, f). split.
  - apply list_elem_of_In, list_elem_of_lookup. exists k. by apply Hpos.
  - cbn [fst snd]. rewrite Hfull. by left.
Qed.

Lemma contractor_index_is_upload_position_witness :
  columns (normalize 2 (fst (load_table Sample.read Sample.read
                                        Sample.quote_a)))
  = ["ITEM"; "Contractor_2_RATE"]
  /\ normalize 2 (fst (load_table Sample.read Sample.read Sample.quote_a))
     ∈ fst (load_frames Sample.read Sample.read
                        [Sample.corrupt; Sample.quote_a]).
Proof.
  split; [reflexivity|].
  apply (proj2 (proj2 (contractor_index_is_upload_position
                         Sample.read Sample.read
                         [Sample.corrupt; Sample.quote_a]))
           1 Sample.quote_a); reflexivity.
Defined.

(** ** De-duplicator *)

Lemma occurrences_snoc (c x : string) (l : list string) :
  occurrences c (l ++ [x])
  = occurrences c l + (if String.eqb c x then 1 else 0).
Proof.
  unfold occurrences. rewrite List.filter_app, length_app. simpl.
  by destruct (String.eqb c x).
Qed.

Lemma unique_loop_spec (cols before new_cols : list string)
    (seen : gmap string nat) :
  seen_of seen before ->
  snd (fold_left unique_step cols (seen, new_cols))
  = new_cols ++ labels_after before cols.
Proof.
  revert before new_cols seen.
  induction cols as [|c cols IH]; intros before new_cols seen Hseen.
  - simpl. by rewrite app_nil_r.
  - cbn [fold_left labels_after]. unfold unique_step at 2.
    pose proof (Hseen c) as Hc.
    assert (forall v, match occurrences c before with
                      | 0 => 0 | S k => S k end = v ->
                      seen_of (<[ c := v ]> seen) (before ++ [c])) as Hnext.
    { intros v Hv d. rewrite occurrences_snoc.
      destruct (String.eqb_spec d c) as [->|Hne].
      - rewrite lookup_insert_eq, Nat.add_1_r. f_equal.
        destruct (occurrences c before); lia.
      - rewrite lookup_insert_ne, Nat.add_0_r by done. apply Hseen. }
    destruct (occurrences c before) as [|k]; rewrite Hc.
    + rewrite (IH (before ++ [c])) by (by apply Hnext).
      by rewrite <- app_assoc.
    + rewrite (IH (before ++ [c])) by (by apply Hnext).
      by rewrite <- app_assoc.
Qed.

(** The loop of [make_columns_unique] computes the labels the specification
    describes: first occurrences are kept, the [k]-th later occurrence of a
    label [X] becomes [X_k]. *)
Lemma unique_labels_spec (cols : list string) :
  unique_labels cols = spec_unique_labels cols.
Proof.
  unfold unique_labels, spec_unique_labels.
  by rewrite (unique_loop_spec cols [] [] ∅).
Qed.

Lemma labels_after_shape (before cols : list string) :
  Forall2 (fun c c' => c' = c \/ exists k, c' = c +:+ "_" +:+ Str.of_nat k)
          cols (labels_after before cols).
Proof.
  revert before. induction cols as [|c cols IH]; intros before; simpl.
  - constructor.
  - constructor; [|apply IH].
    destruct (occurrences c before); [by left | right; eauto].
Qed.

(** C5, on the code: in a table whose labels are [X], [X_1] and [X], the
    second [X] is renamed to [X_1], a label the table already has, so the
    labels of the result are not pairwise distinct.  Such a table is shown
    by a run on two quotations with the headers [ITEM, ITEM_1] and
    [ITEM, QTY] matched by description. *)
Theorem make_columns_unique_collides :
  columns (make_columns_unique Sample.suffixed) = ["X"; "X_1"; "X_1"]
  /\ ~ NoDup (columns (make_columns_unique Sample.suffixed))
  /\ st_dataframe (mkDataFrame ["ITEM"; "ITEM_1"; "ITEM_1"; "QTY"]
                               [[Txt "1.1"; Num 10; Txt "1.1"; Num 10]])
     ∈ snd (run_comparison Sample.read Sample.read
                           [Sample.quote_c; Sample.quote_d]
                           "DESCRIPTION only").
Proof.
  split; [reflexivity|]. split.
  - intros Hnd. apply NoDup_cons in Hnd as [_ Hnd].
    apply NoDup_cons in Hnd as [Hin _]. apply Hin. by left.
  - vm_compute. apply list_elem_of_further, list_elem_of_here.
Qed.

(** C10: [make_columns_unique] changes labels only: the rows, and with them
    every cell and the row count, are the same; there are as many columns,
    and the label at each position is the old one, possibly followed by an
    underscore and a number. *)
Theorem make_columns_unique_frame (df : DataFrame) :
  rows (make_columns_unique df) = rows df
  /\ nrows (make_columns_unique df) = nrows df
  /\ ncols (make_columns_unique df) = ncols df
  /\ Forall2 (fun c c' => c' = c \/ exists k, c' = c +:+ "_" +:+ Str.of_nat k)
             (columns df) (columns (make_columns_unique df)).
Proof.
  assert (Forall2
            (fun c c' => c' = c \/ exists k, c' = c +:+ "_" +:+ Str.of_nat k)
            (columns df) (columns (make_columns_unique df))) as Hshape.
  { cbn [make_columns_unique columns]. rewrite unique_labels_spec.
    apply labels_after_shape. }
  split; [done|]. split; [done|]. split; [|done].
  unfold ncols. symmetry. by eapply Forall2_length.
Qed.


(** * Further properties *)

(** ** Decimal numbers and suffixes *)

Lemma of_nat_inj (n m : nat) : Str.of_nat n = Str.of_nat m -> n = m.
Proof.
  unfold Str.of_nat. intros H. apply DecimalNat.Unsigned.to_uint_inj.
  apply (f_equal NilEmpty.uint_of_string) in H.
  rewrite !NilEmpty.usu in H. by injection H.
Qed.

Lemma of_nat_no_underscore (n : nat) : no_underscore (Str.of_nat n) = true.
Proof.
  unfold Str.of_nat. generalize (Nat.to_uint n). intros d.
  induction d; simpl; done.
Qed.

Lemma underscore_inside (a b : string) :
  no_underscore (a +:+ String "_" b) = false.
Proof.
  induction a as [|c a IH]; simpl; [done|]. rewrite IH. apply andb_false_r.
Qed.

(** A string splits in one way only at its last underscore. *)
Lemma split_last_underscore (a b x y : string) :
  no_underscore x = true -> no_underscore y = true ->
  a +:+ String "_" x = b +:+ String "_" y -> a = b /\ x = y.
Proof.
  intros Hx Hy. revert b. induction a as [|c a IH]; intros [|d b]; simpl.
  - by intros [= ->].
  - intros [= <- ->]. by rewrite underscore_inside in Hx.
  - intros [= -> <-]. by rewrite underscore_inside in Hy.
  - intros [= -> H]. destruct (IH b H) as [-> ->]. done.
Qed.

Lemma suffixed_inj (c d : string) (k m : nat) :
  suffixed c k = suffixed d m -> c = d /\ k = m.
Proof.
  unfold suffixed. intros H.
  apply split_last_underscore in H as [-> H];
    [|apply of_nat_no_underscore..].
  split; [done | by apply of_nat_inj].
Qed.

Lemma append_nil_inv (c s : string) : c +:+ s = c -> s = "".
Proof. induction c as [|a c IH]; simpl; [done | intros [= H]; auto]. Qed.

Lemma suffixed_neq (c : string) (k : nat) : suffixed c k <> c.
Proof. unfold suffixed. by intros H%append_nil_inv. Qed.

(** X1: the labels given to the rate and amount columns tell the uploads
    apart: two different upload positions never give the same
    [Contractor_i_RATE] or the same [Contractor_i_AMOUNT], and a rate label
    is never an amount label. *)
Theorem contractor_labels_distinct (i j : nat) :
  (i <> j ->
   normalize_name i <> normalize_name j
   /\ normalize_name i +:+ "_RATE" <> normalize_name j +:+ "_RATE"
   /\ normalize_name i +:+ "_AMOUNT" <> normalize_name j +:+ "_AMOUNT")
  /\ normalize_name i +:+ "_RATE" <> normalize_name j +:+ "_AMOUNT".
Proof.
  assert (normalize_name i = normalize_name j -> i = j) as Hinj.
  { unfold normalize_name. intros H%append_cancel_l. by apply of_nat_inj. }
  split.
  - intros Hne. split; [auto|]. split; intros H;
      apply split_last_underscore in H as [H _]; auto.
  - intros H. by apply split_last_underscore in H as [_ H].
Qed.

Lemma contractor_labels_distinct_witness :
  normalize_name 1 +:+ "_RATE" <> normalize_name 12 +:+ "_RATE".
Proof.
  apply (proj1 (contractor_labels_distinct 1 12)). lia.
Defined.

(** ** Loader: choice of the reader *)

Lemma endswith_refl (s : string) : Str.endswith s s = true.
Proof. destruct s; cbn [Str.endswith]; by rewrite String.eqb_refl. Qed.

Lemma endswith_append (suf a : string) : Str.endswith suf (a +:+ suf) = true.
Proof.
  induction a as [|c a IH]; simpl; [apply endswith_refl|].
  rewrite IH. apply orb_true_r.
Qed.

(** X2: the extension is read without regard to case: a file whose name
    ends in [.csv], [.CSV], [.Csv] or any other casing of it is parsed by
    [pd.read_csv], never by [pd.read_excel]. *)
Theorem parse_csv_any_case
    (read_csv read_excel : UploadedFile -> Parsed)
    (stem ext data : string) :
  Str.lower ext = ".csv" ->
  parse read_csv read_excel (mkUploadedFile (stem +:+ ext) data)
  = read_csv (mkUploadedFile (stem +:+ ext) data).
Proof.
  intros Hext. unfold parse. cbn [name].
  by rewrite lower_append, Hext, endswith_append.
Qed.

Lemma parse_csv_any_case_witness :
  parse Sample.read (fun _ => Raises "not a workbook")
        (mkUploadedFile ("Quote A" +:+ ".CSV") "Rate")
  = Sample.read (mkUploadedFile ("Quote A" +:+ ".CSV") "Rate").
Proof.
  apply (parse_csv_any_case Sample.read (fun _ => Raises "not a workbook")
           "Quote A" ".CSV" "Rate").
  reflexivity.
Defined.

(** ** Normaliser: what it leaves alone *)

Lemma standardize_rate_columns (df : DataFrame) :
  columns (standardize_rate df)
  = map (fun c => if label_in "RATE" (columns df) then c
                  else if rate_like c then "RATE" else c)
        (columns df).
Proof.
  destruct (label_in "RATE" (columns df)) eqn:HR.
  - rewrite standardize_rate_present by done. by rewrite map_id.
  - by apply standardize_rate_absent.
Qed.

Lemma normalize_ncols (i : nat) (df : DataFrame) :
  ncols (normalize i df) = ncols df.
Proof.
  unfold ncols.
  by rewrite normalize_columns, standardize_rate_columns, !length_map.
Qed.

Lemma normalize_is_empty (i : nat) (df : DataFrame) :
  is_empty (normalize i df) = is_empty df.
Proof.
  unfold is_empty, nrows. by rewrite normalize_ncols, normalize_rows.
Qed.

(** The label [normalize] gives to a column labelled [c], in a table that
    has ([has_rate]) or has not a column [RATE]. *)
Lemma normalize_columns_pointwise (i : nat) (df : DataFrame) :
  columns (normalize i df)
  = map (fun c =>
           let c' := if label_in "RATE" (columns df) then c
                     else if rate_like c then "RATE" else c in
           if String.eqb c' "RATE" then normalize_name i +:+ "_RATE"
           else if String.eqb c' "AMOUNT" then normalize_name i +:+ "_AMOUNT"
           else c')
        (columns df).
Proof. by rewrite normalize_columns, standardize_rate_columns, map_map. Qed.

Lemma normalize_label_other (i : nat) (has_rate : bool) (x c : string) :
  rate_like x = false -> x <> "AMOUNT" ->
  x <> normalize_name i +:+ "_AMOUNT" ->
  String.eqb x
    (let c' := if has_rate then c else if rate_like c then "RATE" else c in
     if String.eqb c' "RATE" then normalize_name i +:+ "_RATE"
     else if String.eqb c' "AMOUNT" then normalize_name i +:+ "_AMOUNT"
     else c')
  = String.eqb x c.
Proof.
  intros Hx HA HtA.
  assert (x <> normalize_name i +:+ "_RATE") as HtR.
  { intros ->. by rewrite rate_like_tagged in Hx. }
  assert (x <> "RATE") as HR by (by intros ->).
  assert (forall y, x <> y -> String.eqb x y = false) as Hne.
  { intros y. apply String.eqb_neq. }
  assert (rate_like c = true -> String.eqb x c = false) as Hrate.
  { intros Hc. apply Hne. intros ->. congruence. }
  cbv zeta.
  destruct has_rate; [|destruct (rate_like c) eqn:Hc].
  - destruct (String.eqb_spec c "RATE") as [->|];
      [by rewrite !Hne|].
    destruct (String.eqb_spec c "AMOUNT") as [->|]; [by rewrite !Hne|done].
  - cbn. by rewrite Hne, Hrate.
  - destruct (String.eqb_spec c "RATE") as [->|]; [done|].
    destruct (String.eqb_spec c "AMOUNT") as [->|]; [by rewrite !Hne|done].
Qed.

(** X3: the normaliser renames nothing but rate and amount columns: a column
    whose label neither contains "rate" nor is [AMOUNT] keeps its label and
    its position; the key columns [ITEM] and [DESCRIPTION] are present after
    it exactly when they were before; and no cell of the table changes. *)
Theorem normalize_keeps_other_labels (i : nat) (df : DataFrame) :
  (forall j c,
      columns df !! j = Some c ->
      rate_like c = false -> c <> "AMOUNT" ->
      columns (normalize i df) !! j = Some c)
  /\ label_in "ITEM" (columns (normalize i df))
     = label_in "ITEM" (columns df)
  /\ label_in "DESCRIPTION" (columns (normalize i df))
     = label_in "DESCRIPTION" (columns df)
  /\ rows (normalize i df) = rows df.
Proof.
  assert (forall x, rate_like x = false -> x <> "AMOUNT" ->
                    x <> normalize_name i +:+ "_AMOUNT" ->
                    label_in x (columns (normalize i df))
                    = label_in x (columns df)) as Hkey.
  { intros x Hx HA HtA. rewrite normalize_columns_pointwise.
    generalize (label_in "RATE" (columns df)). intros has_rate.
    unfold label_in. induction (columns df) as [|c cols IH]; [done|].
    cbn [map existsb]. rewrite IH. f_equal.
    by apply normalize_label_other. }
  split; [|split; [|split]].
  - intros j c Hj Hc HA. rewrite normalize_columns_pointwise, lookup_map, Hj.
    cbn [fmap option_fmap option_map]. f_equal.
    assert (c <> "RATE") as HR by (by intros ->).
    rewrite Hc. destruct (label_in "RATE" (columns df));
      by rewrite !(proj2 (String.eqb_neq _ _)).
  - by apply Hkey.
  - by apply Hkey.
  - apply normalize_rows.
Qed.

Lemma normalize_keeps_other_labels_witness :
  columns (normalize 2 Sample.priced) !! 1 = Some "DESCRIPTION".
Proof.
  apply (proj1 (normalize_keeps_other_labels 2 Sample.priced) 1 "DESCRIPTION");
    [reflexivity | reflexivity | discriminate].
Defined.

(** X4: when the table has a column labelled exactly [RATE], the scan for
    "rate" does not run: only that column becomes [Contractor_i_RATE], and
    the other columns that mention a rate keep their labels. *)
Theorem normalize_exact_rate_only (i : nat) (df : DataFrame) :
  label_in "RATE" (columns df) = true ->
  columns (normalize i df)
  = map (fun c => if String.eqb c "RATE" then normalize_name i +:+ "_RATE"
                  else if String.eqb c "AMOUNT"
                       then normalize_name i +:+ "_AMOUNT"
                  else c)
        (columns df).
Proof. intros HR. by rewrite normalize_columns_pointwise, HR. Qed.

Lemma normalize_exact_rate_only_witness :
  columns (normalize 3 Sample.exact_rate)
  = ["ITEM"; "Contractor_3_RATE"; "Unit Rate"].
Proof.
  apply (normalize_exact_rate_only 3 Sample.exact_rate). reflexivity.
Defined.

(** X5: after normalisation no column is labelled [RATE] or [AMOUNT] any
    more, whatever the table was: every such column carries the
    contractor's prefix. *)
Theorem normalize_leaves_no_plain_label (i : nat) (df : DataFrame) :
  label_in "RATE" (columns (normalize i df)) = false
  /\ label_in "AMOUNT" (columns (normalize i df)) = false.
Proof.
  rewrite normalize_columns_pointwise.
  generalize (label_in "RATE" (columns df)). intros has_rate.
  unfold label_in.
  induction (columns df) as [|c cols [IHR IHA]]; [done|].
  cbn [map existsb]. rewrite IHR, IHA, !orb_false_r. cbv zeta.
  set (c' := if has_rate then c else if rate_like c then "RATE" else c).
  destruct (String.eqb_spec c' "RATE") as [|HR]; [done|].
  destruct (String.eqb_spec c' "AMOUNT") as [|HA]; [done|].
  split; by apply String.eqb_neq.
Qed.

(** ** Merger: keys *)

(** X6: the key set of a fold step is what the mode asks for, restricted
    to the labels both tables carry, in the order [ITEM], [DESCRIPTION]; a
    mode other than "ITEM + DESCRIPTION" and "DESCRIPTION only" asks for
    [ITEM].  Every key is therefore a column of both tables. *)
Theorem step_keys_intersection (mode : string) (combined part : DataFrame) :
  step_keys mode combined part
  = List.filter
      (fun k => label_in k (columns combined) && label_in k (columns part))
      (requested_keys mode)
  /\ Forall (fun k => k ∈ columns combined /\ k ∈ columns part
                      /\ (k = "ITEM" \/ k = "DESCRIPTION"))
            (step_keys mode combined part).
Proof.
  assert (step_keys mode combined part
          = List.filter
              (fun k => label_in k (columns combined)
                        && label_in k (columns part))
              (requested_keys mode)) as Heq.
  { unfold step_keys, requested_keys.
    destruct (String.eqb mode "ITEM + DESCRIPTION"); [done|].
    destruct (String.eqb mode "DESCRIPTION only"); cbn [List.filter];
      by destruct (_ && _). }
  split; [done|]. rewrite Heq. apply Forall_forall. intros k Hk.
  apply list_elem_of_In, filter_In in Hk as [Hk Hboth].
  apply andb_true_iff in Hboth as [Hc Hp].
  apply label_in_true in Hc, Hp. split; [done|]. split; [done|].
  unfold requested_keys in Hk.
  destruct (String.eqb mode "ITEM + DESCRIPTION");
    [|destruct (String.eqb mode "DESCRIPTION only")];
    cbn in Hk; intuition auto.
Qed.

(** ** Merger: columns and shape *)

Lemma non_key_self (keys cols : list string) :
  Pd.non_key keys cols cols
  = List.filter (fun c => negb (label_in c keys)) cols.
Proof.
  unfold Pd.non_key. induction cols as [|c cols IH]; [done|].
  cbn [zip zip_with List.filter fst]. fold (zip cols cols).
  destruct (negb (label_in c keys)); cbn [map snd]; by rewrite IH.
Qed.

Lemma non_key_length {A : Type} (keys cols : list string) (xs : list A) :
  length xs = length cols ->
  length (Pd.non_key keys cols xs)
  = length (Pd.non_key keys cols cols).
Proof.
  unfold Pd.non_key. revert xs.
  induction cols as [|c cols IH]; intros [|x xs]; try done.
  intros [= Hlen]. cbn [zip zip_with List.filter fst].
  fold (zip cols xs) (zip cols cols).
  destruct (negb (label_in c keys)); cbn [map length]; by rewrite IH.
Qed.

Lemma filter_split_length {X : Type} (p : X -> bool) (l : list X) :
  length (List.filter p l) + length (List.filter (fun x => negb (p x)) l)
  = length l.
Proof.
  induction l as [|x l IH]; [done|]. cbn [List.filter].
  destruct (p x); cbn [negb length]; lia.
Qed.

Lemma merge_outer_ncols (left right : DataFrame) (keys : list string) :
  ncols (Pd.merge_outer left right keys)
  = ncols left + length (Pd.non_key keys (columns right) (columns right)).
Proof.
  unfold ncols, Pd.merge_outer, Pd.merged_columns. cbn [columns].
  by rewrite length_app, !length_map.
Qed.

(** X7: a fold step adds to the accumulator the columns of the incoming
    table that are not keys: the result has the columns of both tables,
    less one for every column of the incoming table that the step uses as a
    key (none when the step concatenates). *)
Theorem merge_step_ncols (mode : string) (combined part : DataFrame) :
  ncols (merge_step mode combined part)
  + length (List.filter
              (fun c => label_in c (step_keys mode combined part))
              (columns part))
  = ncols combined + ncols part.
Proof.
  destruct (step_keys mode combined part) as [|k ks] eqn:E.
  - rewrite merge_step_no_keys by done. unfold ncols. cbn.
    rewrite length_app. replace (List.filter _ (columns part)) with
      (@nil string); [simpl; lia|].
    induction (columns part) as [|c cols IH]; [done|]. by cbn.
  - rewrite merge_step_keys, E by (by rewrite E).
    rewrite merge_outer_ncols, non_key_self.
    pose proof (filter_split_length (fun c => label_in c (k :: ks))
                  (columns part)) as H.
    cbv beta in H. unfold ncols. lia.
Qed.

Lemma reindex_rectangular (n : nat) (df : DataFrame) :
  rectangular df ->
  Forall (fun r : Row => length r = ncols df) (Pd.reindex n df).
Proof.
  intros H. unfold Pd.reindex. apply Forall_app. split; [done|].
  apply Forall_forall. intros r Hr.
  apply list_elem_of_In, repeat_spec in Hr as ->. apply repeat_length.
Qed.

Lemma concat_columns_rectangular (left right : DataFrame) :
  rectangular left -> rectangular right ->
  rectangular (Pd.concat_columns left right).
Proof.
  intros Hl Hr. unfold rectangular, Pd.concat_columns, ncols.
  cbn [rows columns]. apply Forall_forall. intros r Hin.
  apply elem_of_zip_with in Hin as (x & y & -> & Hx & Hy).
  pose proof (reindex_rectangular
                (Nat.max (nrows left) (nrows right)) _ Hl) as Hl'.
  pose proof (reindex_rectangular
                (Nat.max (nrows left) (nrows right)) _ Hr) as Hr'.
  rewrite Forall_forall in Hl', Hr'.
  rewrite !length_app, (Hl' x Hx), (Hr' y Hy). done.
Qed.

Lemma merge_outer_rectangular (left right : DataFrame) (keys : list string) :
  rectangular left -> rectangular right ->
  rectangular (Pd.merge_outer left right keys).
Proof.
  intros Hl Hr. unfold rectangular. rewrite merge_outer_ncols.
  unfold rectangular in Hl, Hr. rewrite Forall_forall in Hl, Hr.
  unfold Pd.merge_outer. cbn [rows]. apply Forall_app. split.
  - unfold Pd.left_rows. apply Forall_flat_map, Forall_forall.
    intros l Hin. specialize (Hl l Hin). unfold Pd.expand.
    destruct (List.filter _ (rows right)) as [|m ms] eqn:F.
    + apply Forall_cons. split; [|done].
      by rewrite length_app, repeat_length, Hl.
    + apply Forall_forall. intros row Hrow.
      apply list_elem_of_In, in_map_iff in Hrow as (r & <- & Hrin).
      rewrite <- F in Hrin. apply filter_In in Hrin as [Hrin _].
      apply list_elem_of_In in Hrin.
      rewrite length_app, Hl, non_key_length; [done|].
      by apply Hr.
  - unfold Pd.right_rows. apply Forall_forall. intros row Hrow.
    apply list_elem_of_In, in_map_iff in Hrow as (r & <- & Hrin).
    apply filter_In in Hrin as [Hrin _]. apply list_elem_of_In in Hrin.
    unfold Pd.right_only_row.
    rewrite length_app, length_map, non_key_length; [done|].
    by apply Hr.
Qed.

(** X8: a fold step keeps tables rectangular: when every row of the
    accumulator and of the incoming table has one cell per column, so has
    every row of the result, joined or concatenated. *)
Theorem merge_step_rectangular (mode : string) (combined part : DataFrame) :
  rectangular combined -> rectangular part ->
  rectangular (merge_step mode combined part).
Proof.
  intros Hc Hp. unfold merge_step.
  destruct (step_keys mode combined part).
  - by apply concat_columns_rectangular.
  - by apply merge_outer_rectangular.
Qed.

Lemma merge_step_rectangular_witness :
  rectangular (merge_step "ITEM only" Sample.items_left Sample.items_right).
Proof.
  apply (merge_step_rectangular "ITEM only" Sample.items_left
           Sample.items_right);
    repeat (apply Forall_cons; split; [reflexivity|]); apply Forall_nil_2.
Defined.

(** ** Merger: rows and labels of a join *)

Lemma expand_keeps_left {A B C : Type} (P : A -> B -> bool)
    (paired : A -> B -> C) (alone : A -> C) (R : list B) (l : A) :
  In (alone l) (Pd.expand P paired alone R l)
  \/ exists r, In r R /\ P l r = true
               /\ In (paired l r) (Pd.expand P paired alone R l).
Proof.
  unfold Pd.expand. destruct (List.filter (P l) R) as [|m ms] eqn:F.
  - left. by left.
  - right. exists m.
    assert (In m (List.filter (P l) R)) as Hm by (rewrite F; by left).
    apply filter_In in Hm as [Hm HP]. split; [done|]. split; [done|].
    by left.
Qed.

Lemma expand_keeps_partner {A B C : Type} (P : A -> B -> bool)
    (paired : A -> B -> C) (alone : A -> C) (R : list B) (l : A) (r : B) :
  In r R -> P l r = true -> In (paired l r) (Pd.expand P paired alone R l).
Proof.
  intros Hr HP. unfold Pd.expand.
  assert (In r (List.filter (P l) R)) as Hin by (by apply filter_In).
  destruct (List.filter (P l) R) as [|m ms]; [done|].
  by apply in_map.
Qed.

(** X9: an outer join of two tables whose numbers are exact drops no row
    of either table: every row of the accumulator is the beginning of a
    row of the result, and the cells every row of the incoming table has
    outside the keys are the end of a row of the result. *)
Theorem outer_join_keeps_rows (mode : string) (combined part : DataFrame) :
  step_keys mode combined part <> [] ->
  exact_numbers combined = true ->
  exact_numbers part = true ->
  let keys := step_keys mode combined part in
  let out := merge_step mode combined part in
  (forall l, l ∈ rows combined -> exists r', l ++ r' ∈ rows out)
  /\ (forall r, r ∈ rows part ->
                exists l', l' ++ Pd.non_key keys (columns part) r ∈ rows out).
Proof.
  intros Hkeys _ _ keys out. unfold out. rewrite merge_step_keys by done.
  fold keys. unfold Pd.merge_outer. cbn [rows]. split.
  - intros l Hl. apply list_elem_of_In in Hl.
    destruct (expand_keeps_left (Pd.same_key keys combined part)
                (fun l r => l ++ Pd.non_key keys (columns part) r)
                (fun l => l ++ repeat NA
                            (length (Pd.non_key keys (columns part)
                                       (columns part))))
                (rows part) l) as [H|(r & _ & _ & H)].
    + eexists. apply elem_of_app. left. apply list_elem_of_In.
      unfold Pd.left_rows. apply in_flat_map. eauto.
    + eexists. apply elem_of_app. left. apply list_elem_of_In.
      unfold Pd.left_rows. apply in_flat_map. eauto.
  - intros r Hr. apply list_elem_of_In in Hr.
    destruct (Pd.lonely (Pd.same_key keys combined part) (rows combined) r)
      eqn:E.
    + eexists. apply elem_of_app. right. apply list_elem_of_In.
      unfold Pd.right_rows. apply in_map_iff. exists r.
      split; [reflexivity|]. by apply filter_In.
    + unfold Pd.lonely in E. apply negb_false_iff, existsb_exists in E.
      destruct E as (l & Hl & Hsame).
      exists l. apply elem_of_app. left. apply list_elem_of_In.
      unfold Pd.left_rows. apply in_flat_map. exists l. split; [done|].
      by apply (expand_keeps_partner (Pd.same_key keys combined part)
                  (fun l r => l ++ Pd.non_key keys (columns part) r)).
Qed.

Lemma outer_join_keeps_rows_witness :
  exists r', [Txt "1.1"; Num 10] ++ r'
             ∈ rows (merge_step "ITEM only" Sample.items_left
                                Sample.items_right).
Proof.
  assert (step_keys "ITEM only" Sample.items_left Sample.items_right <> [])
    as Hkeys by (by vm_compute).
  apply (proj1 (outer_join_keeps_rows "ITEM only" Sample.items_left
                  Sample.items_right Hkeys eq_refl eq_refl)).
  apply list_elem_of_here.
Defined.

(** X10: a join renames nothing unless it has to: when the two tables
    share no label outside the keys, the result is labelled with the
    labels of the accumulator followed by the labels of the incoming table
    that are not keys, none with [_x] or [_y]. *)
Theorem outer_join_labels_without_clash (mode : string)
    (combined part : DataFrame) :
  step_keys mode combined part <> [] ->
  (forall c, c ∈ columns combined -> c ∈ columns part ->
             c ∈ step_keys mode combined part) ->
  columns (merge_step mode combined part)
  = columns combined
    ++ List.filter
         (fun c => negb (label_in c (step_keys mode combined part)))
         (columns part).
Proof.
  intros Hkeys Hshared. rewrite merge_step_keys by done.
  set (keys := step_keys mode combined part) in *.
  unfold Pd.merge_outer, Pd.merged_columns. cbn [columns].
  rewrite !non_key_self. f_equal.
  - rewrite <- (map_id (columns combined)) at 2. apply map_ext_in.
    intros c Hc. apply list_elem_of_In in Hc.
    destruct (label_in c keys) eqn:Hk; [done|]. cbn [negb andb].
    destruct (label_in c (List.filter _ (columns part))) eqn:Hin; [|done].
    apply label_in_true, list_elem_of_In, filter_In in Hin as [Hin _].
    apply list_elem_of_In in Hin.
    apply label_in_false in Hk. by destruct (Hk (Hshared c Hc Hin)).
  - rewrite <- (map_id (List.filter _ (columns part))) at 2.
    apply map_ext_in. intros c Hc.
    apply filter_In in Hc as [Hc Hk]. apply list_elem_of_In in Hc.
    destruct (label_in c (List.filter _ (columns combined))) eqn:Hin; [|done].
    apply label_in_true, list_elem_of_In, filter_In in Hin as [Hin _].
    apply list_elem_of_In in Hin.
    apply negb_true_iff, label_in_false in Hk.
    by destruct (Hk (Hshared c Hin Hc)).
Qed.

Lemma outer_join_labels_without_clash_witness :
  columns (merge_step "ITEM only" Sample.items_left Sample.items_right)
  = ["ITEM"; "Contractor_1_RATE"; "Contractor_2_RATE"].
Proof.
  assert (step_keys "ITEM only" Sample.items_left Sample.items_right <> [])
    as Hkeys by (by vm_compute).
  apply (outer_join_labels_without_clash "ITEM only" Sample.items_left
           Sample.items_right Hkeys).
  intros c Hc Hp.
  apply elem_of_cons in Hc as [->|Hc]; [apply list_elem_of_here|].
  apply elem_of_cons in Hc as [->|Hc]; [|by apply elem_of_nil in Hc].
  apply elem_of_cons in Hp as [Hp|Hp]; [discriminate Hp|].
  apply elem_of_cons in Hp as [Hp|Hp]; [discriminate Hp|].
  by apply elem_of_nil in Hp.
Defined.

Lemma expand_single {A B C : Type} (P : A -> B -> bool)
    (paired : A -> B -> C) (alone : A -> C) (L : list A) (R : list B) :
  (forall l, In l L -> length (List.filter (P l) R) <= 1) ->
  length (flat_map (Pd.expand P paired alone R) L) = length L.
Proof.
  intros Hone. induction L as [|l L IH]; [done|].
  cbn [flat_map]. rewrite length_app, expand_length, IH.
  - specialize (Hone l (or_introl eq_refl)). simpl. lia.
  - intros l' Hl'. apply Hone. by right.
Qed.

Lemma filter_none_length {X : Type} (p : X -> bool) (l : list X) :
  (forall x, In x l -> p x = false) -> length (List.filter p l) = 0.
Proof.
  intros H. apply filter_length_zero.
  destruct (existsb p l) eqn:E; [|done].
  apply existsb_exists in E as (x & Hx & Hp). by rewrite (H x Hx) in Hp.
Qed.

Lemma filter_all_length {X : Type} (p : X -> bool) (l : list X) :
  (forall x, In x l -> p x = true) -> length (List.filter p l) = length l.
Proof.
  intros H. rewrite forallb_filter_id; [done|].
  apply forallb_forall. exact H.
Qed.

(** X11: quotations that list the same items merge row for row: when no
    key tuple occurs twice in the incoming table and each of its rows has
    the key of some row of the accumulator, the join has as many rows as
    the accumulator. *)
Theorem outer_join_full_overlap (mode : string) (combined part : DataFrame) :
  step_keys mode combined part <> [] ->
  let keys := step_keys mode combined part in
  NoDup (map (Pd.key_of keys (columns part)) (rows part)) ->
  (forall r, r ∈ rows part ->
             exists l, l ∈ rows combined
                       /\ Pd.key_of keys (columns combined) l
                          = Pd.key_of keys (columns part) r) ->
  nrows (merge_step mode combined part) = nrows combined.
Proof.
  intros Hkeys keys Hnd Hall.
  rewrite merge_step_keys, merge_outer_nrows by done. fold keys.
  unfold Pd.left_rows. rewrite expand_single, filter_none_length.
  - unfold nrows. lia.
  - intros r Hr. apply list_elem_of_In, Hall in Hr as (l & Hl & Hsame).
    unfold Pd.lonely. apply negb_false_iff, existsb_exists.
    exists l. split; [by apply list_elem_of_In|].
    by apply bool_decide_eq_true.
  - intros l _.
    apply (unique_key_filter (Pd.key_of keys (columns part)) _
             (Pd.key_of keys (columns combined) l)); [|done].
    intros r Hr. by apply bool_decide_eq_true in Hr.
Qed.

Lemma outer_join_full_overlap_witness :
  nrows (merge_step "ITEM only" Sample.items_left Sample.short_left)
  = nrows Sample.items_left.
Proof.
  assert (step_keys "ITEM only" Sample.items_left Sample.short_left <> [])
    as Hkeys by (by vm_compute).
  apply (outer_join_full_overlap "ITEM only" Sample.items_left
           Sample.short_left Hkeys).
  - apply (bool_decide_unpack _). by vm_compute.
  - intros r Hr. apply elem_of_cons in Hr as [->|Hr];
      [|by apply elem_of_nil in Hr].
    exists [Txt "1.1"; Num 10]. split; [apply list_elem_of_here|reflexivity].
Defined.

(** X12: quotations that share no item are stacked: when the numbers of the
    two tables are exact and no row of the accumulator has the key of a row
    of the incoming table, the join has as many rows as the two tables
    together. *)
Theorem outer_join_disjoint (mode : string) (combined part : DataFrame) :
  step_keys mode combined part <> [] ->
  exact_numbers combined = true ->
  exact_numbers part = true ->
  let keys := step_keys mode combined part in
  (forall l r, l ∈ rows combined -> r ∈ rows part ->
               Pd.key_of keys (columns combined) l
               <> Pd.key_of keys (columns part) r) ->
  nrows (merge_step mode combined part) = nrows combined + nrows part.
Proof.
  intros Hkeys _ _ keys Hdisj.
  assert (forall l r, In l (rows combined) -> In r (rows part) ->
                      Pd.same_key keys combined part l r = false) as Hno.
  { intros l r Hl Hr. apply bool_decide_eq_false.
    apply Hdisj; by apply list_elem_of_In. }
  rewrite merge_step_keys, merge_outer_nrows by done. fold keys.
  unfold Pd.left_rows. rewrite expand_single, filter_all_length; [done|..].
  - intros r Hr. unfold Pd.lonely. apply negb_true_iff.
    destruct (existsb _ (rows combined)) eqn:E; [|done].
    apply existsb_exists in E as (l & Hl & Hsame).
    by rewrite (Hno l r Hl Hr) in Hsame.
  - intros l Hl. rewrite filter_none_length; [lia|].
    intros r Hr. by apply Hno.
Qed.

Lemma outer_join_disjoint_witness :
  nrows (merge_step "ITEM only" Sample.short_left
                    (mkDataFrame ["ITEM"; "Contractor_2_RATE"]
                                 [[Txt "2.1"; Num 7]]))
  = 2.
Proof.
  assert (step_keys "ITEM only" Sample.short_left
            (mkDataFrame ["ITEM"; "Contractor_2_RATE"] [[Txt "2.1"; Num 7]])
          <> []) as Hkeys by (by vm_compute).
  apply (outer_join_disjoint "ITEM only" Sample.short_left
           (mkDataFrame ["ITEM"; "Contractor_2_RATE"] [[Txt "2.1"; Num 7]])
           Hkeys eq_refl eq_refl).
  intros l r Hl Hr.
  apply elem_of_cons in Hl as [->|Hl]; [|by apply elem_of_nil in Hl].
  apply elem_of_cons in Hr as [->|Hr]; [|by apply elem_of_nil in Hr].
  by vm_compute.
Defined.



(** ** De-duplicator: when it renames, when it succeeds *)

Lemma occurrences_zero (c : string) (l : list string) :
  occurrences c l = 0 <-> c ∉ l.
Proof.
  unfold occurrences. induction l as [|x l IH]; cbn [List.filter].
  - split; [intros _ H; by apply elem_of_nil in H | done].
  - rewrite not_elem_of_cons.
    destruct (String.eqb_spec c x) as [->|Hne]; cbn [length].
    + split; [done | by intros [? _]].
    + rewrite IH. tauto.
Qed.

Lemma labels_after_fixed (before cols : list string) :
  labels_after before cols = cols
  <-> NoDup cols /\ (forall c, c ∈ cols -> c ∉ before).
Proof.
  revert before. induction cols as [|c cols IH]; intros before.
  - split; [|done]. intros _. split; [constructor|].
    intros c H. by apply elem_of_nil in H.
  - cbn [labels_after]. split.
    + intros [= Hhead Htail]. apply IH in Htail as [Hnd Hfresh].
      assert (occurrences c before = 0) as Hc.
      { destruct (occurrences c before); [done|].
        by apply suffixed_neq in Hhead. }
      apply occurrences_zero in Hc.
      split.
      * apply NoDup_cons. split; [|done]. intros Hin.
        apply (Hfresh c Hin), elem_of_app. right. apply list_elem_of_here.
      * intros d [->|Hd]%elem_of_cons; [done|].
        intros Hin. apply (Hfresh d Hd), elem_of_app. by left.
    + intros [Hnd Hfresh]. apply NoDup_cons in Hnd as [Hc Hnd].
      assert (occurrences c before = 0) as ->.
      { apply occurrences_zero, Hfresh, list_elem_of_here. }
      f_equal. apply IH. split; [done|].
      intros d Hd [Hin|Hin%list_elem_of_singleton]%elem_of_app.
      * by apply (Hfresh d (list_elem_of_further _ _ _ Hd)).
      * by subst d.
Qed.

(** X14: the de-duplicator renames a column exactly when some label is
    repeated: the labels come out as they went in if and only if they were
    pairwise distinct. *)
Theorem make_columns_unique_fixed (df : DataFrame) :
  make_columns_unique df = df <-> NoDup (columns df).
Proof.
  destruct df as [cols rs]. unfold make_columns_unique. cbn [columns rows].
  rewrite unique_labels_spec. unfold spec_unique_labels.
  split.
  - intros [= H]. by apply labels_after_fixed in H as [H _].
  - intros H. f_equal. apply labels_after_fixed. split; [done|].
    intros c _ Hc. by apply elem_of_nil in Hc.
Qed.

Lemma make_columns_unique_fixed_witness :
  make_columns_unique Sample.priced = Sample.priced.
Proof.
  apply (proj2 (make_columns_unique_fixed Sample.priced)).
  apply (bool_decide_unpack _). by vm_compute.
Defined.

Lemma occurrences_pos (c : string) (l : list string) :
  1 <= occurrences c l -> c ∈ l.
Proof.
  intros H. destruct (decide (c ∈ l)) as [|Hn]; [done|].
  apply occurrences_zero in Hn. lia.
Qed.

(** What [labels_after] puts out: first occurrences as they are, later
    occurrences with the number of occurrences so far. *)
Lemma labels_after_elem (before cols : list string) (o : string) :
  o ∈ labels_after before cols ->
  (o ∈ cols /\ occurrences o before = 0)
  \/ (exists d k, d ∈ cols /\ o = suffixed d k
                  /\ 1 <= k /\ occurrences d before <= k).
Proof.
  revert before. induction cols as [|c cols IH]; intros before.
  - intros H. by apply elem_of_nil in H.
  - cbn [labels_after]. intros [->|Hin]%elem_of_cons.
    + destruct (occurrences c before) as [|n] eqn:E.
      * left. split; [apply list_elem_of_here | done].
      * right. exists c, (S n). split; [apply list_elem_of_here|].
        split; [done|]. lia.
    + apply IH in Hin as [[Ho Hocc]|(d & k & Hd & -> & Hk & Hocc)].
      * left. split; [by apply list_elem_of_further|].
        rewrite occurrences_snoc in Hocc. lia.
      * right. exists d, k. split; [by apply list_elem_of_further|].
        split; [done|]. rewrite occurrences_snoc in Hocc. lia.
Qed.

Lemma labels_after_NoDup (before cols : list string) :
  (forall c d k, c ∈ cols -> d ∈ cols -> d <> suffixed c k) ->
  NoDup (labels_after before cols).
Proof.
  revert before. induction cols as [|c cols IH]; intros before Hclean.
  - constructor.
  - cbn [labels_after]. apply NoDup_cons. split.
    + intros Hin. apply labels_after_elem in Hin.
      destruct (occurrences c before) as [|n] eqn:E.
      * destruct Hin as [[_ Hocc]|(d & k & Hd & Heq & _)].
        -- rewrite occurrences_snoc, String.eqb_refl in Hocc. lia.
        -- apply (Hclean d c k); [by apply list_elem_of_further|
                                   apply list_elem_of_here | done].
      * destruct Hin as [[Ho _]|(d & k & Hd & Heq & _ & Hocc)].
        -- apply (Hclean c (suffixed c (S n)) (S n));
             [apply list_elem_of_here | by apply list_elem_of_further | done].
        -- apply suffixed_inj in Heq as [<- <-].
           rewrite occurrences_snoc, String.eqb_refl in Hocc. lia.
    + apply IH. intros x d k Hx Hd.
      apply Hclean; by apply list_elem_of_further.
Qed.

(** X15: the de-duplicator does make the labels pairwise distinct when no
    label of the table is another label of the table followed by an
    underscore and a number, which is the only way its counter can
    collide. *)
Theorem make_columns_unique_distinct (df : DataFrame) :
  (forall c d k, c ∈ columns df -> d ∈ columns df ->
                 d <> c +:+ "_" +:+ Str.of_nat k) ->
  NoDup (columns (make_columns_unique df)).
Proof.
  intros Hclean. cbn [make_columns_unique columns].
  rewrite unique_labels_spec. by apply labels_after_NoDup.
Qed.

Lemma make_columns_unique_distinct_witness :
  NoDup (columns (make_columns_unique Sample.repeated_labels)).
Proof.
  apply (make_columns_unique_distinct Sample.repeated_labels).
  intros c d k _ Hd Heq. subst d.
  assert (no_underscore (c +:+ "_" +:+ Str.of_nat k) = true) as Hno.
  { repeat (apply elem_of_cons in Hd as [->|Hd]; [reflexivity|]).
    by apply elem_of_nil in Hd. }
  change (c +:+ "_" +:+ Str.of_nat k)
    with (c +:+ String "_" (Str.of_nat k)) in Hno.
  by rewrite underscore_inside in Hno.
Defined.

(** ** The run as a whole *)

Lemma merge_step_ncols_ge (mode : string) (combined part : DataFrame) :
  ncols combined <= ncols (merge_step mode combined part).
Proof.
  unfold merge_step. destruct (step_keys mode combined part).
  - unfold ncols, Pd.concat_columns. cbn [columns]. rewrite length_app. lia.
  - rewrite merge_outer_ncols. lia.
Qed.

Lemma is_empty_false (df : DataFrame) :
  is_empty df = false <-> 1 <= ncols df /\ 1 <= nrows df.
Proof.
  unfold is_empty. rewrite orb_false_iff, !Nat.eqb_neq. lia.
Qed.

Lemma merge_step_not_empty (mode : string) (combined part : DataFrame) :
  is_empty combined = false ->
  is_empty (merge_step mode combined part) = false.
Proof.
  rewrite !is_empty_false. intros [Hc Hr].
  pose proof (merge_step_ncols_ge mode combined part).
  pose proof (merge_step_nrows_ge mode combined part). lia.
Qed.

Lemma fold_not_empty (mode : string) (parts : list DataFrame)
    (first : DataFrame) :
  is_empty first = false ->
  is_empty (fold_left (merge_step mode) parts first) = false.
Proof.
  revert first. induction parts as [|p parts IH]; intros first H; [done|].
  cbn [fold_left]. by apply IH, merge_step_not_empty.
Qed.


Section Run.

Variable read_csv : UploadedFile -> Parsed.
Variable read_excel : UploadedFile -> Parsed.

Local Abbreviation load := (load_table read_csv read_excel).
Local Abbreviation frames_of := (load_frames read_csv read_excel).
Local Abbreviation merge := (merge_contractors read_csv read_excel).

Lemma frames_not_empty (files : list UploadedFile) (t : DataFrame) :
  t ∈ fst (frames_of files) -> is_empty t = false.
Proof.
  unfold load_frames. rewrite load_loop_fst. cbn [app].
  intros Hin. apply list_elem_of_In, in_flat_map in Hin as (p & _ & Hin).
  destruct (is_empty (fst (load (snd p)))) eqn:E; [done|].
  destruct Hin as [<-|[]]. by rewrite normalize_is_empty.
Qed.

Lemma frames_nil_iff (files : list UploadedFile) :
  fst (frames_of files) = []
  <-> forall f, f ∈ files -> is_empty (fst (load f)) = true.
Proof.
  unfold load_frames. rewrite load_loop_fst. cbn [app]. split.
  - generalize 1. induction files as [|f files IH]; intros i Hnil g Hg.
    + by apply elem_of_nil in Hg.
    + cbn [enumerate flat_map fst snd] in Hnil.
      apply app_eq_nil in Hnil as [Hf Hrest].
      apply elem_of_cons in Hg as [->|Hg].
      * by destruct (is_empty (fst (load f))).
      * by apply (IH (S i)).
  - apply load_loop_none.
Qed.

Lemma merge_value (files : list UploadedFile) (mode : string) :
  fst (merge files mode)
  = match fst (frames_of files) with
    | [] => empty_frame
    | first :: parts => fold_left (merge_step mode) parts first
    end.
Proof.
  unfold merge_contractors. rewrite fst_bind.
  by destruct (fst (frames_of files)).
Qed.


Lemma merge_is_empty (files : list UploadedFile) (mode : string) :
  is_empty (fst (merge files mode)) = true <-> fst (frames_of files) = [].
Proof.
  rewrite merge_value.
  destruct (fst (frames_of files)) as [|first parts] eqn:E; [done|].
  rewrite fold_not_empty; [done|].
  apply (frames_not_empty files). rewrite E. apply list_elem_of_here.
Qed.

End Run.

(** X16: the merged table is empty only when there was nothing to merge:
    [merge_contractors] returns a table without rows or without columns if
    and only if every upload failed to load or loaded empty.  The warning
    "No data to display." is thus never shown without the warning
    "No valid files to merge!". *)
Theorem merged_empty_iff_no_valid_file
    (read_csv read_excel : UploadedFile -> Parsed)
    (files : list UploadedFile) (mode : string) :
  is_empty (fst (merge_contractors read_csv read_excel files mode)) = true
  <-> (forall f, f ∈ files ->
                 is_empty (fst (load_table read_csv read_excel f)) = true).
Proof. by rewrite merge_is_empty, frames_nil_iff. Qed.

Lemma merged_empty_iff_no_valid_file_witness :
  is_empty (fst (merge_contractors Sample.read Sample.read
                                   [Sample.corrupt] "ITEM only")) = true.
Proof.
  apply (proj2 (merged_empty_iff_no_valid_file Sample.read Sample.read
                  [Sample.corrupt] "ITEM only")).
  intros f Hf. apply elem_of_cons in Hf as [->|Hf]; [reflexivity|].
  by apply elem_of_nil in Hf.
Defined.




(** X18: a single usable upload is returned as it is: when every other
    upload fails or is empty, [merge_contractors] returns the one loaded
    table, normalised under its own upload position, without any join or
    concatenation. *)
Theorem single_valid_file_returned
    (read_csv read_excel : UploadedFile -> Parsed)
    (before after : list UploadedFile) (file : UploadedFile)
    (mode : string) :
  (forall f, f ∈ before ++ after ->
             is_empty (fst (load_table read_csv read_excel f)) = true) ->
  is_empty (fst (load_table read_csv read_excel file)) = false ->
  fst (merge_contractors read_csv read_excel (before ++ file :: after) mode)
  = normalize (length before + 1)
              (fst (load_table read_csv read_excel file)).
Proof.
  intros Hothers Hfile. rewrite merge_value.
  unfold load_frames. rewrite load_loop_fst, enumerate_app.
  cbn [enumerate app]. rewrite flat_map_app. cbn [flat_map fst snd].
  rewrite !load_loop_none, Hfile.
  - cbn. f_equal. lia.
  - intros f Hf. apply Hothers, elem_of_app. by right.
  - intros f Hf. apply Hothers, elem_of_app. by left.
Qed.

Lemma single_valid_file_returned_witness :
  fst (merge_contractors Sample.read Sample.read
         ([Sample.corrupt] ++ Sample.quote_a :: [Sample.corrupt])
         "ITEM only")
  = normalize 2 (fst (load_table Sample.read Sample.read Sample.quote_a)).
Proof.
  apply (single_valid_file_returned Sample.read Sample.read
           [Sample.corrupt] [Sample.corrupt] Sample.quote_a "ITEM only").
  - intros f Hf.
    repeat (apply elem_of_cons in Hf as [->|Hf]; [reflexivity|]).
    by apply elem_of_nil in Hf.
  - reflexivity.
Defined.

Lemma enumerate_elem {A : Type} (n i : nat) (x : A) (l : list A) :
  (i, x) ∈ enumerate n l -> x ∈ l.
Proof.
  revert n. induction l as [|y l IH]; intros n; cbn [enumerate].
  - by intros H%elem_of_nil.
  - intros [[= _ ->]|Hin]%elem_of_cons; [apply list_elem_of_here|].
    apply list_elem_of_further. by apply (IH (S n)).
Qed.

Lemma normalize_rectangular (i : nat) (df : DataFrame) :
  rectangular df -> rectangular (normalize i df).
Proof.
  unfold rectangular. by rewrite normalize_rows, normalize_ncols.
Qed.

Lemma make_columns_unique_rectangular (df : DataFrame) :
  rectangular df -> rectangular (make_columns_unique df).
Proof.
  unfold rectangular, ncols. cbn [make_columns_unique columns rows].
  rewrite unique_labels_spec. unfold spec_unique_labels.
  by rewrite <- (Forall2_length _ _ _ (labels_after_shape [] (columns df))).
Qed.

Lemma fold_rectangular (mode : string) (parts : list DataFrame)
    (first : DataFrame) :
  rectangular first -> Forall rectangular parts ->
  rectangular (fold_left (merge_step mode) parts first).
Proof.
  revert first. induction parts as [|p parts IH]; intros first Hf Hp;
    [done|].
  apply Forall_cons in Hp as [Hp Hps]. cbn [fold_left]. apply IH; [|done].
  unfold merge_step. destruct (step_keys mode first p).
  - by apply concat_columns_rectangular.
  - by apply merge_outer_rectangular.
Qed.

(** X19: the run keeps tables rectangular: when the readers return tables
    whose rows have one cell per column, so do the table
    [merge_contractors] returns and the de-duplicated table that is shown
    and offered for download, whatever the uploads and the mode. *)
Theorem merged_table_rectangular
    (read_csv read_excel : UploadedFile -> Parsed)
    (files : list UploadedFile) (mode : string) :
  (forall f df, f ∈ files ->
                parse read_csv read_excel f = Returns df ->
                rectangular df) ->
  rectangular (fst (merge_contractors read_csv read_excel files mode))
  /\ rectangular
       (make_columns_unique
          (fst (merge_contractors read_csv read_excel files mode))).
Proof.
  intros Hread.
  assert (Forall rectangular (fst (load_frames read_csv read_excel files)))
    as Hframes.
  { unfold load_frames. rewrite load_loop_fst. cbn [app].
    apply Forall_flat_map, Forall_forall. intros [i f] Hin. cbn [fst snd].
    destruct (is_empty _); [done|]. apply Forall_cons. split; [|done].
    apply normalize_rectangular.
    assert (f ∈ files) as Hf by (by apply enumerate_elem in Hin).
    unfold load_table. destruct (parse read_csv read_excel f) eqn:E.
    - by apply (Hread f).
    - cbn. by constructor. }
  assert (rectangular
            (fst (merge_contractors read_csv read_excel files mode)))
    as Hmerged.
  { rewrite merge_value.
    destruct (fst (load_frames read_csv read_excel files)) as [|t ts].
    - by constructor.
    - apply Forall_cons in Hframes as [Ht Hts]. by apply fold_rectangular. }
  split; [done|]. by apply make_columns_unique_rectangular.
Qed.

Lemma merged_table_rectangular_witness :
  rectangular (fst (merge_contractors Sample.read Sample.read
                      [Sample.quote_a; Sample.quote_b] "ITEM only")).
Proof.
  apply (merged_table_rectangular Sample.read Sample.read
           [Sample.quote_a; Sample.quote_b] "ITEM only").
  intros f df Hf Hparse.
  repeat (apply elem_of_cons in Hf as [->|Hf];
          [injection Hparse as <-;
           repeat (apply Forall_cons; split; [reflexivity|]);
           apply Forall_nil_2|]).
  by apply elem_of_nil in Hf.
Defined.

(** ** Merger: what a join does to the accumulator's labels *)

(** X20: after a join every column of the accumulator is where it was, and
    its label is unchanged when it is a key or when the incoming table has
    no column of that label; when both tables carry the label outside the
    keys, the accumulator's column gets the suffix [_x]. *)
Theorem outer_join_accumulator_labels (mode : string)
    (combined part : DataFrame) (j : nat) (c : string) :
  step_keys mode combined part <> [] ->
  columns combined !! j = Some c ->
  let keys := step_keys mode combined part in
  let out := merge_step mode combined part in
  (c ∈ keys \/ c ∉ columns part -> columns out !! j = Some c)
  /\ (c ∉ keys -> c ∈ columns part -> columns out !! j = Some (c +:+ "_x")).
Proof.
  intros Hkeys Hj keys out. unfold out. rewrite merge_step_keys by done.
  fold keys. unfold Pd.merge_outer, Pd.merged_columns. cbn [columns].
  rewrite non_key_self.
  assert (forall l : list string,
             (map (fun c => if negb (label_in c keys)
                               && label_in c
                                    (List.filter
                                       (fun c => negb (label_in c keys))
                                       (columns part))
                            then c +:+ "_x" else c) (columns combined)
              ++ l) !! j
             = Some (if negb (label_in c keys)
                        && label_in c
                             (List.filter (fun c => negb (label_in c keys))
                                          (columns part))
                     then c +:+ "_x" else c)) as Hlook.
  { intros l. rewrite lookup_app_l.
    - by rewrite lookup_map, Hj.
    - rewrite length_map. by apply lookup_lt_Some in Hj. }
  rewrite Hlook. split.
  - intros [Hk|Hp].
    + apply label_in_true in Hk. by rewrite Hk.
    + destruct (label_in c (List.filter _ (columns part))) eqn:E.
      * apply label_in_true, list_elem_of_In, filter_In in E as [E _].
        by apply list_elem_of_In in E.
      * by rewrite andb_false_r.
  - intros Hk Hp. apply label_in_false in Hk. rewrite Hk. cbn [negb andb].
    assert (label_in c (List.filter (fun c => negb (label_in c keys))
                                    (columns part)) = true) as ->; [|done].
    apply label_in_true, list_elem_of_In, filter_In.
    split; [by apply list_elem_of_In | by rewrite Hk].
Qed.

Lemma outer_join_accumulator_labels_witness :
  columns (merge_step "ITEM only" Sample.items_left Sample.items_right) !! 1
  = Some "Contractor_1_RATE".
Proof.
  assert (step_keys "ITEM only" Sample.items_left Sample.items_right <> [])
    as Hkeys by (by vm_compute).
  apply (proj1 (outer_join_accumulator_labels "ITEM only" Sample.items_left
                  Sample.items_right 1 "Contractor_1_RATE" Hkeys
                  eq_refl)).
  right. intros Hin.
  repeat (apply elem_of_cons in Hin as [Hin|Hin]; [discriminate Hin|]).
  by apply elem_of_nil in Hin.
Defined.

(** ** Merger: the first quotation through the fold *)

Lemma merge_step_keeps_left_rows (mode : string) (combined part : DataFrame)
    (l : Row) :
  l ∈ rows combined ->
  exists r', l ++ r' ∈ rows (merge_step mode combined part).
Proof.
  intros Hl. unfold merge_step.
  destruct (step_keys mode combined part) as [|k ks].
  - apply list_elem_of_lookup in Hl as [j Hj].
    unfold Pd.concat_columns. cbn [rows].
    assert (Pd.reindex (Nat.max (nrows combined) (nrows part)) combined !! j
            = Some l) as Hlj.
    { unfold Pd.reindex. by apply lookup_app_l_Some. }
    destruct (Pd.reindex (Nat.max (nrows combined) (nrows part)) part !! j)
      as [r'|] eqn:E.
    + exists r'. apply list_elem_of_lookup. exists j.
      rewrite lookup_zip_with, Hlj. cbn. by rewrite E.
    + apply lookup_ge_None in E. apply lookup_lt_Some in Hj.
      rewrite reindex_length in E by lia. unfold nrows in E. lia.
  - apply list_elem_of_In in Hl. unfold Pd.merge_outer. cbn [rows].
    destruct (expand_keeps_left (Pd.same_key (k :: ks) combined part)
                (fun l r => l ++ Pd.non_key (k :: ks) (columns part) r)
                (fun l => l ++ repeat NA
                            (length (Pd.non_key (k :: ks) (columns part)
                                       (columns part))))
                (rows part) l) as [H|(r & _ & _ & H)];
      eexists; apply elem_of_app; left; apply list_elem_of_In;
      unfold Pd.left_rows; apply in_flat_map; eauto.
Qed.

(** X21: no row of the first usable quotation is lost by the fold: when
    the numbers of all the tables are exact, then however many tables are
    joined or concatenated after the first, each of its rows is the
    beginning of a row of the final table. *)
Theorem fold_keeps_first_rows (mode : string) (first : DataFrame)
    (parts : list DataFrame) (l : Row) :
  exact_numbers first = true ->
  forallb exact_numbers parts = true ->
  l ∈ rows first ->
  exists r', l ++ r' ∈ rows (fold_left (merge_step mode) parts first).
Proof.
  intros _ _. revert first l.
  induction parts as [|p parts IH]; intros first l Hl.
  - exists []. by rewrite app_nil_r.
  - cbn [fold_left].
    destruct (merge_step_keeps_left_rows mode first p l Hl) as [r1 H1].
    destruct (IH _ _ H1) as [r2 H2].
    exists (r1 ++ r2). by rewrite app_assoc.
Qed.

Lemma fold_keeps_first_rows_witness :
  exists r', [Txt "1.1"; Num 10] ++ r'
             ∈ rows (fold_left (merge_step "ITEM only")
                               [Sample.items_right; Sample.long_right]
                               Sample.items_left).
Proof.
  apply (fold_keeps_first_rows "ITEM only" Sample.items_left
           [Sample.items_right; Sample.long_right]);
    [reflexivity | reflexivity | apply list_elem_of_here].
Defined.
